(** * Nifty analysis: indicator engine and analysis summarizer

    A shallow embedding of [src/lib/niftyAnalysis.ts]: the 2-decimal
    [round], [addIndicators] (rolling SMA 10/20/50 and RSI 14) and
    [analyzeNifty] (bias, confidence, support and resistance, headline and
    narrative), followed by the properties proved about them.

    The source is embedded twice, line by line.

    - In exact arithmetic: a [number] is a rational, or one of the three
      special values of IEEE 754 (the two infinities and NaN), so that a
      division by zero, a comparison with NaN and the truthiness of a
      number behave as they do in the source. Rounding error, overflow and
      the sign of zero are outside this embedding. It carries the
      properties of structure, order and dispatch: which fields are
      present, which branch is taken, which candles are read, and the
      order between support, last close and resistance, which the doubles
      keep because each of their operations is monotone.

    - In doubles (module [Double]): a number is an IEEE 754 binary64
      value, and every sum, product and quotient is the correctly rounded
      one, as in JavaScript. It carries the properties that name a value:
      the moving averages, the RSI, the percentages, the confidence
      thresholds and [round] itself. *)

From Stdlib Require Floats.
Import PrimFloat.
From Stdlib Require Import ZArith QArith Qpower Qround Qabs Qminmax Lqa Lia.
From Stdlib Require Import List String Bool.
From Stdlib Require Import Sorted.
Import ListNotations.

Local Open Scope Z_scope.
Set Warnings "-inexact-float".

(** ** Numbers *)

Module Number.

Inductive number : Type :=
| Fin (q : Q)
| PInf
| NInf
| NaN.

Definition of_Z (z : Z) : number := Fin (inject_Z z).

Definition Qlt_bool (x y : Q) : bool := negb (Qle_bool y x).

Definition neg (x : number) : number :=
  match x with
  | Fin q => Fin (- q)
  | PInf => NInf
  | NInf => PInf
  | NaN => NaN
  end.

(** [x + y] *)
Definition add (x y : number) : number :=
  match x, y with
  | NaN, _ | _, NaN => NaN
  | Fin a, Fin b => Fin (a + b)
  | PInf, NInf | NInf, PInf => NaN
  | PInf, _ | _, PInf => PInf
  | NInf, _ | _, NInf => NInf
  end.

(** [x - y] *)
Definition sub (x y : number) : number := add x (neg y).

(** Sign of a number that is not NaN: [1], [0] or [-1]. *)
Definition sign (x : number) : Z :=
  match x with
  | Fin q => Z.sgn (Qnum q)
  | PInf => 1
  | NInf => -1
  | NaN => 0
  end.

Definition inf_of_sign (s : Z) : number :=
  if s <? 0 then NInf else PInf.

(** [x * y]: an infinity times zero is NaN. *)
Definition mul (x y : number) : number :=
  match x, y with
  | NaN, _ | _, NaN => NaN
  | Fin a, Fin b => Fin (a * b)
  | _, _ =>
      if sign x * sign y =? 0 then NaN else inf_of_sign (sign x * sign y)
  end.

(** [x / y]: a non-zero number over zero is an infinity, zero over zero and
    an infinity over an infinity are NaN, a finite number over an infinity
    is zero. *)
Definition div (x y : number) : number :=
  match x, y with
  | NaN, _ | _, NaN => NaN
  | Fin a, Fin b =>
      if Qeq_bool b 0
      then (if Qeq_bool a 0 then NaN else inf_of_sign (sign x))
      else Fin (a / b)
  | Fin _, _ => Fin 0
  | _, Fin b => inf_of_sign (sign x * (if Qlt_bool b 0 then -1 else 1))
  | _, _ => NaN
  end.

(** [x < y]: false as soon as one side is NaN. *)
Definition lt (x y : number) : bool :=
  match x, y with
  | NaN, _ | _, NaN => false
  | Fin a, Fin b => Qlt_bool a b
  | NInf, NInf => false
  | NInf, _ => true
  | _, NInf => false
  | PInf, _ => false
  | _, PInf => true
  end.

(** [x > y] *)
Definition gt (x y : number) : bool := lt y x.

(** [x === y] on numbers: NaN is equal to nothing. *)
Definition strict_eq (x y : number) : bool :=
  match x, y with
  | Fin a, Fin b => Qeq_bool a b
  | PInf, PInf | NInf, NInf => true
  | _, _ => false
  end.

(** Truthiness of a number in a condition: zero and NaN are falsy. *)
Definition truthy (x : number) : bool :=
  match x with
  | Fin q => negb (Qeq_bool q 0)
  | NaN => false
  | _ => true
  end.

(** [Math.abs] *)
Definition abs (x : number) : number :=
  match x with
  | Fin q => Fin (Qabs q)
  | NaN => NaN
  | _ => PInf
  end.

(** [Math.max] and [Math.min] of two numbers: NaN as soon as one is NaN. *)
Definition max (x y : number) : number :=
  match x, y with
  | NaN, _ | _, NaN => NaN
  | _, _ => if lt x y then y else x
  end.

Definition min (x y : number) : number :=
  match x, y with
  | NaN, _ | _, NaN => NaN
  | _, _ => if lt y x then y else x
  end.

(** [Math.max(...xs)] and [Math.min(...xs)]: the fold of the binary
    operation from minus infinity, resp. plus infinity. *)
Definition max_list (xs : list number) : number := fold_left max xs NInf.
Definition min_list (xs : list number) : number := fold_left min xs PInf.

(** [Math.round]: the closest integer, the one towards plus infinity when
    two integers are equally close. *)
Definition Math_round (x : number) : number :=
  match x with
  | Fin q => Fin (inject_Z (Qfloor (q + (1 # 2))))
  | _ => x
  end.

(** Equality of numbers up to the representation of a rational. *)
Definition eqv (x y : number) : Prop :=
  match x, y with
  | Fin a, Fin b => a == b
  | PInf, PInf | NInf, NInf | NaN, NaN => True
  | _, _ => False
  end.

End Number.

Import Number.

Declare Scope js_scope.
Delimit Scope js_scope with js.
Infix "+" := add : js_scope.
Infix "-" := sub : js_scope.
Infix "*" := mul : js_scope.
Infix "/" := div : js_scope.
Infix "<?" := lt : js_scope.
Infix ">?" := gt : js_scope.
Infix "===" := strict_eq (at level 70) : js_scope.
Infix "==" := eqv (at level 70) : js_scope.

(** ** [round] *)

(** In this embedding the product, [Math.round] and the quotient are exact:
    [round] is monotone and returns a multiple of 1/100. The values it
    returns on doubles are those of [Double.round]. *)

(** [function round(value, digits = 2)] *)
Definition round (value : number) (digits : Z) : number :=
  let factor := Fin (10 ^ digits) in
  (Math_round (value * factor) / factor)%js.

(** The call [round(value)] with the default number of digits. *)
Definition round2 (value : number) : number := round value 2.

(** ** Data model *)

(** A candle reaches the core through JSON, which carries neither NaN nor
    an infinity: its prices are finite numbers. *)
Record Candle : Type := mkCandle {
  date : string;
  open : Q;
  high : Q;
  low : Q;
  close : Q;
  volume : option Q
}.

(** [IndicatorPoint extends Candle]: the fields of the candle, then the
    optional indicators ([None] is [undefined]). *)
Record IndicatorPoint : Type := mkIndicatorPoint {
  candle :> Candle;
  sma10 : option number;
  sma20 : option number;
  sma50 : option number;
  rsi14 : option number
}.

Inductive Bias : Type := bullish | bearish | neutral.
Inductive Confidence : Type := conf_high | conf_medium | conf_low.

(** A template literal: its pieces in order, a literal text or an
    interpolated number. The string is the concatenation of the texts and
    of the decimal representations of the numbers. *)
Inductive fragment : Type :=
| Text (s : string)
| Value (n : number).

Record NiftyAnalysis : Type := mkNiftyAnalysis {
  lastClose : number;
  previousClose : option number;
  dailyChangePct : option number;
  bias : Bias;
  momentumPct5Day : option number;
  res_rsi14 : option number;
  supportZone : option number;
  resistanceZone : option number;
  nextMoveHeadline : string;
  narrative : list fragment;
  confidence : Confidence
}.

(** The outcome of a call that may throw. *)
Inductive result (A : Type) : Type :=
| Ok (value : A)
| Throw (message : string).
Arguments Ok {A} value.
Arguments Throw {A} message.

(** ** Arrays *)

Section Arrays.
Context {A : Type}.

Definition len (xs : list A) : Z := Z.of_nat (List.length xs).

(** [xs[i]]: [None] is [undefined]. *)
Definition at_index (xs : list A) (i : Z) : option A :=
  if i <? 0 then None else nth_error xs (Z.to_nat i).

(** [xs.slice(start, stop)]: a negative bound counts from the end, and
    both are clamped to the array. *)
Definition slice (xs : list A) (start stop : Z) : list A :=
  let k := if start <? 0 then Z.max (len xs + start) 0
           else Z.min start (len xs) in
  let final := if stop <? 0 then Z.max (len xs + stop) 0
               else Z.min stop (len xs) in
  firstn (Z.to_nat (final - k)) (skipn (Z.to_nat k) xs).

(** [xs.slice(start)] *)
Definition slice_from (xs : list A) (start : Z) : list A :=
  slice xs start (len xs).
End Arrays.

(** [xs[i]] used as a number: [undefined] becomes NaN in arithmetic. *)
Definition num_at (xs : list number) (i : Z) : number :=
  match at_index xs i with
  | Some v => v
  | None => NaN
  end.

(** [values.reduce((acc, value) => acc + value, 0)] *)
Definition sum (values : list number) : number :=
  fold_left (fun acc value => (acc + value)%js) values (of_Z 0).

(** ** [addIndicators] *)

Section Callback.
(** The variables the callback of [candles.map] closes over: the closes,
    and the two arrays it pushes to. *)
Variable closes : list number.

Definition windowSlice (index period : Z) : list number :=
  slice closes (Z.max 0 (index - period + 1)) (index + 1).

Definition computeSMA (index period : Z) : option number :=
  if index + 1 <? period then None
  else
    let values := windowSlice index period in
    Some (round (sum values / of_Z period)%js 2).

(** The two [push] calls of the callback. *)
Definition push_change (index : Z) (gains losses : list number)
  : list number * list number :=
  if index =? 0 then (gains ++ [of_Z 0], losses ++ [of_Z 0])
  else
    let change := (num_at closes index - num_at closes (index - 1))%js in
    (gains ++ [max change (of_Z 0)], losses ++ [max (neg change) (of_Z 0)]).

Definition computeRSI (gains losses : list number) (index period : Z)
  : option number :=
  if index <? period then None
  else
    let recentGains := slice gains (index - period + 1) (index + 1) in
    let recentLosses := slice losses (index - period + 1) (index + 1) in
    let averageGain := (sum recentGains / of_Z period)%js in
    let averageLoss := (sum recentLosses / of_Z period)%js in
    if (averageLoss === of_Z 0)%js then Some (of_Z 100)
    else if (averageGain === of_Z 0)%js then Some (of_Z 0)
    else
      let rs := (averageGain / averageLoss)%js in
      Some (round (of_Z 100 - of_Z 100 / (of_Z 1 + rs))%js 2).

(** One call of the callback: the point, and the arrays after it. *)
Definition callback (gains losses : list number) (c : Candle) (index : Z)
  : IndicatorPoint * (list number * list number) :=
  let (gains', losses') := push_change index gains losses in
  (mkIndicatorPoint c
     (computeSMA index 10) (computeSMA index 20) (computeSMA index 50)
     (computeRSI gains' losses' index 14),
   (gains', losses')).

(** [candles.map(callback)] from position [index] on, threading the two
    arrays. *)
Fixpoint map_from (cs : list Candle) (index : Z)
    (gains losses : list number)
  : list IndicatorPoint * (list number * list number) :=
  match cs with
  | [] => ([], (gains, losses))
  | c :: rest =>
      let '(p, (gains', losses')) := callback gains losses c index in
      let '(ps, final) := map_from rest (index + 1) gains' losses' in
      (p :: ps, final)
  end.

(** What the callback pushes at position [i]. *)
Definition pushed_gain (i : nat) : number :=
  match i with
  | O => of_Z 0
  | S _ =>
      max (num_at closes (Z.of_nat i) - num_at closes (Z.of_nat i - 1))%js
        (of_Z 0)
  end.

Definition pushed_loss (i : nat) : number :=
  match i with
  | O => of_Z 0
  | S _ =>
      max (neg (num_at closes (Z.of_nat i)
                - num_at closes (Z.of_nat i - 1))%js)
        (of_Z 0)
  end.

(** The arrays [gains] and [losses] once [n] candles are processed. *)
Definition gains_after (n : nat) : list number := map pushed_gain (seq 0 n).
Definition losses_after (n : nat) : list number := map pushed_loss (seq 0 n).

(** The point the callback returns for candle [c] at position [i]. *)
Definition point_at (i : nat) (c : Candle) : IndicatorPoint :=
  mkIndicatorPoint c
    (computeSMA (Z.of_nat i) 10)
    (computeSMA (Z.of_nat i) 20)
    (computeSMA (Z.of_nat i) 50)
    (computeRSI (gains_after (S i)) (losses_after (S i)) (Z.of_nat i) 14).
End Callback.

(** The run of [addIndicators]: the points it returns, and the contents of
    [gains] and [losses] when it returns. *)
Definition addIndicators_run (candles : list Candle)
  : list IndicatorPoint * (list number * list number) :=
  let closes := map (fun candle => Fin (close candle)) candles in
  map_from closes candles 0 [] [].

Definition addIndicators (candles : list Candle) : list IndicatorPoint :=
  fst (addIndicators_run candles).

(** ** [analyzeNifty] *)

(** [x ?? fallback] inside a template literal. *)
Definition value_or (x : option number) (fallback : fragment) : fragment :=
  match x with
  | Some v => Value v
  | None => fallback
  end.

(** The block that assigns [bias]. *)
Definition compute_bias (lastClose : number) (sma20 sma50 : option number)
  : Bias :=
  match sma20, sma50 with
  | Some s20, Some s50 =>
      if truthy s20 && truthy s50 then
        if (lastClose >? s20)%js && (s20 >? s50)%js then bullish
        else if (lastClose <? s20)%js && (s20 <? s50)%js then bearish
        else neutral
      else neutral
  | _, _ => neutral
  end.

(** The block that assigns [confidence]. *)
Definition compute_confidence (lastClose : number)
    (rsi14 sma20 sma50 : option number) : Confidence :=
  match rsi14, sma20, sma50 with
  | Some rsi, Some s20, Some s50 =>
      let distanceFromSma := abs ((lastClose - s20) / s20)%js in
      if (distanceFromSma <? Fin (5 # 1000))%js
         && (abs ((s20 - s50) / s50) <? Fin (3 # 1000))%js
      then conf_low
      else if (distanceFromSma >? Fin (2 # 100))%js
              || ((rsi >? of_Z 68)%js || (rsi <? of_Z 32)%js)
      then conf_high
      else conf_medium
  | _, _, _ => conf_medium
  end.

(** The five headlines and narrative templates. *)
Definition neutral_headline : string := "Sideways consolidation likely".
Definition neutral_narrative : list fragment :=
  [Text "Nifty appears range-bound as key moving averages converge. Traders may focus on breakouts from recent levels."].

Definition stretched_headline : string := "Uptrend extended but stretched".
Definition stretched_narrative (rsi14 : number)
    (sma20 supportZone : option number) : list fragment :=
  [Text "Momentum stays positive with price riding above the 20-day average, though RSI at ";
   Value rsi14;
   Text " signals potential cooling. Pullbacks toward ";
   value_or sma20 (Text "the 20-day SMA");
   Text " could offer dip opportunities while ";
   value_or supportZone (Text "recent support");
   Text " holds."].

Definition continuation_headline : string := "Upside continuation favoured".
Definition continuation_narrative
    (momentumPct5Day resistanceZone supportZone : option number)
  : list fragment :=
  [Text "Price holds above the rising 20- and 50-day averages with ";
   value_or momentumPct5Day (Value (of_Z 0));
   Text "% five-day momentum. A sustained move above ";
   value_or resistanceZone (Text "recent highs");
   Text " would extend the rally, while ";
   value_or supportZone (Text "nearby support");
   Text " remains the risk marker."].

Definition oversold_headline : string := "Downtrend oversold".
Definition oversold_narrative (rsi14 : number) (supportZone : option number)
  : list fragment :=
  [Text "Nifty is trading beneath its short- and medium-term averages with RSI at ";
   Value rsi14;
   Text ", flagging a stretched sell-off. A pause or mean reversion bounce is possible unless ";
   value_or supportZone (Text "support");
   Text " breaks decisively."].

Definition pressure_headline : string := "Downside pressure building".
Definition pressure_narrative
    (momentumPct5Day supportZone sma20 : option number) : list fragment :=
  [Text "Lower highs persist beneath the 20- and 50-day averages. Momentum over the last week sits at ";
   value_or momentumPct5Day (Value (of_Z 0));
   Text "%. Losing ";
   value_or supportZone (Text "recent support");
   Text " would unlock deeper retracements, while reclaiming ";
   value_or sma20 (Text "the 20-day SMA");
   Text " is needed to neutralise the trend."].

(** The two assignments to [nextMoveHeadline] and [narrative]. *)
Definition compute_story (b : Bias)
    (rsi14 sma20 momentumPct5Day supportZone resistanceZone : option number)
  : string * list fragment :=
  match b with
  | bullish =>
      match rsi14 with
      | Some rsi =>
          if (rsi >? of_Z 68)%js
          then (stretched_headline, stretched_narrative rsi sma20 supportZone)
          else (continuation_headline,
                continuation_narrative momentumPct5Day resistanceZone
                  supportZone)
      | None =>
          (continuation_headline,
           continuation_narrative momentumPct5Day resistanceZone supportZone)
      end
  | bearish =>
      match rsi14 with
      | Some rsi =>
          if (rsi <? of_Z 32)%js
          then (oversold_headline, oversold_narrative rsi supportZone)
          else (pressure_headline,
                pressure_narrative momentumPct5Day supportZone sma20)
      | None =>
          (pressure_headline,
           pressure_narrative momentumPct5Day supportZone sma20)
      end
  | neutral => (neutral_headline, neutral_narrative)
  end.

(** The message of the error thrown on an empty array, and that of the
    error a read of [lastPoint.close] on [undefined] would throw. *)
Definition no_candles_message : string := "No candles provided for analysis".
Definition type_error_message : string :=
  "TypeError: Cannot read properties of undefined".

(** The percentage change from [reference] to [value], to 2 decimals. *)
Definition pct_change (value reference : Q) : number :=
  round ((Fin value - Fin reference) / Fin reference * of_Z 100)%js 2.

Definition analyzeNifty (candles : list Candle) : result NiftyAnalysis :=
  if len candles =? 0 then Throw no_candles_message
  else
    let enriched := addIndicators candles in
    match at_index enriched (len enriched - 1) with
    | None => Throw type_error_message
    | Some lastPoint =>
        let previousPoint :=
          if len enriched >? 1 then at_index enriched (len enriched - 2)
          else None in
        let lastClose := round2 (Fin (close lastPoint)) in
        let previousClose :=
          match previousPoint with
          | Some p => Some (round2 (Fin (close p)))
          | None => None
          end in
        let dailyChangePct :=
          match previousPoint with
          | Some p =>
              if truthy (Fin (close p))
              then Some (pct_change (close lastPoint) (close p))
              else None
          | None => None
          end in
        let rsi14 := rsi14 lastPoint in
        let sma20 := sma20 lastPoint in
        let sma50 := sma50 lastPoint in
        let fiveDayReference :=
          match at_index candles (len candles - 6) with
          | Some c => Some c
          | None => at_index candles 0
          end in
        let momentumPct5Day :=
          match fiveDayReference with
          | Some ref => Some (pct_change (close lastPoint) (close ref))
          | None => None
          end in
        let recentWindow := slice_from candles (-15) in
        let supportZone :=
          if len recentWindow >? 0
          then Some (round (min_list
                              (map (fun candle => Fin (low candle))
                                 recentWindow)) 2)
          else None in
        let resistanceZone :=
          if len recentWindow >? 0
          then Some (round (max_list
                              (map (fun candle => Fin (high candle))
                                 recentWindow)) 2)
          else None in
        let bias := compute_bias lastClose sma20 sma50 in
        let confidence := compute_confidence lastClose rsi14 sma20 sma50 in
        let '(nextMoveHeadline, narrative) :=
          compute_story bias rsi14 sma20 momentumPct5Day supportZone
            resistanceZone in
        Ok (mkNiftyAnalysis lastClose previousClose dailyChangePct bias
              momentumPct5Day rsi14 supportZone resistanceZone
              nextMoveHeadline narrative confidence)
    end.

(** ** Reference definitions

    The quantities the properties are stated with, defined in exact
    rational arithmetic and by index, independently of the arrays and
    folds of the code. *)

Fixpoint Qsum (xs : list Q) : Q :=
  match xs with
  | [] => 0
  | x :: rest => x + Qsum rest
  end.

(** The close of the candle at position [k] (zero outside the sequence). *)
Definition close_at (candles : list Candle) (k : nat) : Q :=
  match nth_error candles k with
  | Some c => close c
  | None => 0
  end.

(** The values of [f] at the [n] positions [first], [first + 1], ... *)
Definition over_window (f : nat -> Q) (first n : nat) : list Q :=
  map f (seq first n).

(** The arithmetic mean of [f] over the [n] positions ending at [i]. *)
Definition trailing_mean (f : nat -> Q) (i n : nat) : Q :=
  Qsum (over_window f (S i - n) n) / inject_Z (Z.of_nat n).

(** Daily gain and loss at position [i]. *)
Definition gain_at (candles : list Candle) (i : nat) : Q :=
  match i with
  | O => 0
  | S j => Qmax (close_at candles i - close_at candles j) 0
  end.

Definition loss_at (candles : list Candle) (i : nat) : Q :=
  match i with
  | O => 0
  | S j => Qmax (- (close_at candles i - close_at candles j)) 0
  end.

(** Rounding to the nearest integer, ties away from zero. *)
Definition round_half_away (x : Q) : Z :=
  Z.sgn (Qnum x) * Qfloor (Qabs x + (1 # 2)).

(** [x] lies exactly half way between two integers. *)
Definition is_tie (x : Q) : Prop := inject_Z (Qfloor x) + (1 # 2) == x.

(** Order on numbers as a proposition. *)
Definition num_lt (x y : number) : Prop := (x <? y)%js = true.

(** The last point of a sequence. *)
Definition last_point (ps : list IndicatorPoint) : option IndicatorPoint :=
  nth_error ps (List.length ps - 1).

Definition closes_of (candles : list Candle) : list number :=
  map (fun candle => Fin (close candle)) candles.

Definition average_gain (candles : list Candle) (i : nat) : Q :=
  trailing_mean (gain_at candles) i 14.

Definition average_loss (candles : list Candle) (i : nat) : Q :=
  trailing_mean (loss_at candles) i 14.

(** The RSI before rounding, from the two averages. *)
Definition rsi_raw (ag al : Q) : Q := 100 - 100 / (1 + ag / al).

Definition rsi_of_averages (ag al : Q) : number :=
  if Qeq_bool al 0 then of_Z 100
  else if Qeq_bool ag 0 then of_Z 0
  else round2 (Fin (rsi_raw ag al)).

(** A candle sequence with the given closes (all four prices equal). *)
Definition flat_candle (q : Q) : Candle := mkCandle "" q q q q None.
Definition flat_candles (closes : list Q) : list Candle :=
  map flat_candle closes.

(** A candle that closes where it opens, with a range of one on each
    side, and a sequence of sixteen of them that rises in a zigzag. *)
Definition candle_around (q : Q) : Candle :=
  mkCandle "" q (q + 1) (q - 1) q None.
Definition zigzag : list Candle :=
  map candle_around
    [10; 11; 10; 12; 11; 13; 12; 14; 13; 15; 14; 16; 15; 17; 16; 18]%Q.

(** The trailing window of at most 15 candles. *)
Definition trailing_window (candles : list Candle) : list Candle :=
  skipn (List.length candles - Nat.min 15 (List.length candles)) candles.






(** Sixty candles with closes 1 to 60: the trend is bullish and the RSI is
    100, so the headline is the stretched uptrend. *)
Definition rising_sixty : list Candle :=
  flat_candles (map (fun k => inject_Z (Z.of_nat k)) (seq 1 60)).

(** ** The candles [analyzeNifty] reads *)

(** The candle before the last, when there are at least two. *)
Definition previous_candle (candles : list Candle) : option Candle :=
  if (1 <? List.length candles)%nat
  then nth_error candles (List.length candles - 2)
  else None.

(** The candle five sessions before the last, or the first candle of a
    shorter sequence. *)
Definition reference_candle (candles : list Candle) : option Candle :=
  if (6 <=? List.length candles)%nat
  then nth_error candles (List.length candles - 6)
  else nth_error candles 0.

(** ** The route: the chart response and [normalizeCandles] *)

(** The chart response of the data provider. A field that is absent or
    [null] is [None]; a price array holds numbers and [null]s. *)
Module Yahoo.

Record Meta : Type := mkMeta {
  regularMarketPrice : option Q;
  previousClose : option Q;
  currency : option string;
  exchangeName : option string;
  regularMarketTime : option Q
}.

Record Quote : Type := mkQuote {
  open : option (list (option Q));
  close : option (list (option Q));
  high : option (list (option Q));
  low : option (list (option Q));
  volume : option (list (option Q))
}.

Record Indicators : Type := mkIndicators {
  quote : option (list Quote)
}.

Record ChartResult : Type := mkChartResult {
  meta : option Meta;
  timestamp : option (list Q);
  indicators : option Indicators
}.

Record Chart : Type := mkChart {
  result : option (list ChartResult)
}.

Record Response : Type := mkResponse {
  chart : option Chart
}.

End Yahoo.

(** [xs?.[0]] *)
Definition first_of {A} (xs : option (list A)) : option A :=
  match xs with
  | Some (x :: _) => Some x
  | _ => None
  end.

(** [xs ?? []] *)
Definition or_empty {A} (xs : option (list A)) : list A :=
  match xs with
  | Some l => l
  | None => []
  end.

(** [x?.f] *)
Definition chain {A B} (x : option A) (f : A -> option B) : option B :=
  match x with
  | Some a => f a
  | None => None
  end.

(** The largest time value of a [Date], in milliseconds. *)
Definition max_time_value : Q := 8640000000000000.

(** The integral part of a rational, towards zero. *)
Definition Qtruncate (q : Q) : Z := Z.quot (Qnum q) (Zpos (Qden q)).

Definition invalid_time_message : string := "Invalid time value".

Section Route.
(** [toISOString] on a [Date] whose time value, in milliseconds since the
    epoch, is valid. *)
Variable toISOString : Z -> string.

(** [new Date(ts * 1000).toISOString()]: the time value is [ts * 1000]
    without its fraction, and the call throws a [RangeError] when it is
    beyond the range of a [Date]. The product is the exact one, as it is
    in doubles for the whole-second timestamps of the chart response; for
    a timestamp with a fraction the code rounds the product to a double
    before the fraction is dropped. *)
Definition iso_date (ts : Q) : result string :=
  let time := (ts * 1000)%Q in
  if Qle_bool (Qabs time) max_time_value
  then Ok (toISOString (Qtruncate time))
  else Throw invalid_time_message.

(** [raw.chart?.result?.[0]] *)
Definition first_result (raw : Yahoo.Response) : option Yahoo.ChartResult :=
  first_of (chain (Yahoo.chart raw) Yahoo.result).

(** [result?.indicators?.quote?.[0]] *)
Definition first_quote (raw : Yahoo.Response) : option Yahoo.Quote :=
  first_of (chain (chain (first_result raw) Yahoo.indicators) Yahoo.quote).

(** [result?.timestamp ?? []] and [quote?.close ?? []], ... *)
Definition timestamps_of (raw : Yahoo.Response) : list Q :=
  or_empty (chain (first_result raw) Yahoo.timestamp).
Definition prices_of (field : Yahoo.Quote -> option (list (option Q)))
    (raw : Yahoo.Response) : list (option Q) :=
  or_empty (chain (first_quote raw) field).

(** The callback of [timestamps.forEach]: the candles after the call, or
    the error thrown. A row with a price that is [null] or beyond its array
    is skipped. *)
Definition push_row (closes opens highs lows volumes : list (option Q))
    (candles : list Candle) (ts : Q) (idx : nat) : result (list Candle) :=
  match nth_error closes idx, nth_error opens idx,
        nth_error highs idx, nth_error lows idx with
  | Some (Some close), Some (Some open), Some (Some high), Some (Some low) =>
      let volume :=
        match nth_error volumes idx with
        | Some (Some v) => Some v
        | _ => None
        end in
      match iso_date ts with
      | Ok date => Ok (candles ++ [mkCandle date open high low close volume])
      | Throw message => Throw message
      end
  | _, _, _, _ => Ok candles
  end.

(** [timestamps.forEach(callback)] from position [idx] on. *)
Fixpoint forEach_from (closes opens highs lows volumes : list (option Q))
    (timestamps : list Q) (idx : nat) (candles : list Candle)
  : result (list Candle) :=
  match timestamps with
  | [] => Ok candles
  | ts :: rest =>
      match push_row closes opens highs lows volumes candles ts idx with
      | Ok candles' =>
          forEach_from closes opens highs lows volumes rest (S idx) candles'
      | Throw message => Throw message
      end
  end.

Definition normalizeCandles (raw : Yahoo.Response) : result (list Candle) :=
  let timestamps := timestamps_of raw in
  let closes := prices_of Yahoo.close raw in
  let opens := prices_of Yahoo.open raw in
  let highs := prices_of Yahoo.high raw in
  let lows := prices_of Yahoo.low raw in
  let volumes := prices_of Yahoo.volume raw in
  forEach_from closes opens highs lows volumes timestamps 0 [].

(** *** [GET] *)

(** What the handler sends: the data, or an error message. *)
Inductive ApiBody : Type :=
| api_data (candles : list Candle) (meta : option Yahoo.Meta)
    (source fetchedAt : string)
| api_error (error : string).

Record ApiReply : Type := mkApiReply {
  status : Z;
  body : ApiBody
}.

(** What [fetch] of the provider gave: it threw, or it answered with
    [response.ok] and a body ([None] when the body cannot be read as a
    chart response). *)
Inductive Upstream : Type :=
| upstream_failed
| upstream_answered (ok : bool) (payload : option Yahoo.Response).

Definition unavailable_message : string :=
  "Unable to retrieve Nifty data at this time".

(** The [catch] block. *)
Definition bad_gateway : ApiReply :=
  mkApiReply 502 (api_error unavailable_message).

(** [GET], given what the provider gave and the time of the call as an ISO
    string. The output on the console is not modelled. *)
Definition GET (upstream : Upstream) (now : string) : ApiReply :=
  match upstream with
  | upstream_failed => bad_gateway
  | upstream_answered ok payload =>
      if negb ok then bad_gateway
      else
        match payload with
        | None => bad_gateway
        | Some raw =>
            match normalizeCandles raw with
            | Throw _ => bad_gateway
            | Ok candles =>
                if len candles =? 0 then bad_gateway
                else
                  let meta := chain (first_result raw) Yahoo.meta in
                  mkApiReply 200
                    (api_data candles meta "Yahoo Finance" now)
            end
        end
  end.
End Route.

(** *** Rows of the chart response, by position *)

(** The price at a position of a price array, when there is one. *)
Definition price_at (prices : list (option Q)) (idx : nat) : option Q :=
  match nth_error prices idx with
  | Some (Some v) => Some v
  | _ => None
  end.

(** The row at a position has its four prices. *)
Definition complete_row (raw : Yahoo.Response) (idx : nat) : Prop :=
  price_at (prices_of Yahoo.close raw) idx <> None
  /\ price_at (prices_of Yahoo.open raw) idx <> None
  /\ price_at (prices_of Yahoo.high raw) idx <> None
  /\ price_at (prices_of Yahoo.low raw) idx <> None.

(** A timestamp, in seconds, within the range of a [Date]. *)
Definition valid_timestamp (ts : Q) : Prop :=
  (Qabs (ts * 1000) <= max_time_value)%Q.

(** The candle [c] is the row at position [idx] of the response. *)
Definition candle_of_row (toISOString : Z -> string) (raw : Yahoo.Response)
    (idx : nat) (c : Candle) : Prop :=
  exists ts,
    nth_error (timestamps_of raw) idx = Some ts
    /\ date c = toISOString (Qtruncate (ts * 1000))
    /\ price_at (prices_of Yahoo.open raw) idx = Some (open c)
    /\ price_at (prices_of Yahoo.high raw) idx = Some (high c)
    /\ price_at (prices_of Yahoo.low raw) idx = Some (low c)
    /\ price_at (prices_of Yahoo.close raw) idx = Some (close c)
    /\ price_at (prices_of Yahoo.volume raw) idx = volume c.

(** The candle of the row at a position, when the row has its four
    prices. *)
Definition row_at (toISOString : Z -> string) (raw : Yahoo.Response)
    (ts : Q) (idx : nat) : option Candle :=
  match price_at (prices_of Yahoo.close raw) idx,
        price_at (prices_of Yahoo.open raw) idx,
        price_at (prices_of Yahoo.high raw) idx,
        price_at (prices_of Yahoo.low raw) idx with
  | Some c, Some o, Some h, Some l =>
      Some (mkCandle (toISOString (Qtruncate (ts * 1000))) o h l c
              (price_at (prices_of Yahoo.volume raw) idx))
  | _, _, _, _ => None
  end.

(** The candles of the complete rows among the timestamps from position
    [idx] on, in order. *)
Fixpoint rows_from (toISOString : Z -> string) (raw : Yahoo.Response)
    (timestamps : list Q) (idx : nat) : list Candle :=
  match timestamps with
  | [] => []
  | ts :: rest =>
      match row_at toISOString raw ts idx with
      | Some c => c :: rows_from toISOString raw rest (S idx)
      | None => rows_from toISOString raw rest (S idx)
      end
  end.

(** A response with three rows: the second has a [null] close, the third
    lies beyond the array of lows. *)
Definition sample_response : Yahoo.Response :=
  Yahoo.mkResponse
    (Some (Yahoo.mkChart
       (Some [Yahoo.mkChartResult None
                (Some [1700000000; 1700086400; 1700172800]%Q)
                (Some (Yahoo.mkIndicators
                   (Some [Yahoo.mkQuote
                            (Some [Some 10; Some 11; Some 12]%Q)
                            (Some [Some 11; None; Some 13]%Q)
                            (Some [Some 12; Some 13; Some 14]%Q)
                            (Some [Some 9; Some 10]%Q)
                            None])))]))).

(** ** The dashboard: [fetchData], [chartData] and the branch rendered *)

(** The JSON the dashboard reads from the route, which sends [candles]
    as an array or leaves it out. A field that is absent is [None], read
    as [undefined]; for [meta], [fetchedAt] and [error] a [null] is read
    the same way and is [None] as well. *)
Module Api.
Record Response : Type := mkResponse {
  candles : option (list Candle);
  meta : option Yahoo.Meta;
  fetchedAt : option string;
  source : option string;
  error : option string
}.
End Api.

(** What a [catch] receives: an [Error] with its message, or another
    value. *)
Inductive Thrown : Type :=
| error_object (message : string)
| other_value.

(** What [fetch] of the route gave: it threw, or it answered with
    [response.ok], and [response.json()] threw or gave a payload. *)
Inductive Fetched : Type :=
| fetch_rejected (err : Thrown)
| fetch_resolved (ok : bool) (json : Thrown + Api.Response).

(** The state of the component. *)
Module Dashboard.
Record State : Type := mkState {
  loading : bool;
  error : option string;
  candles : option (list Candle);
  analysis : option NiftyAnalysis;
  meta : option Yahoo.Meta;
  fetchedAt : option string
}.
End Dashboard.

(** The initial values of the [useState] calls. *)
Definition initial_state : Dashboard.State :=
  Dashboard.mkState true None (Some []) None None None.

(** Truthiness of a string: the empty string is falsy. *)
Definition truthy_string (s : string) : bool :=
  match s with
  | EmptyString => false
  | _ => true
  end.

Definition truthy_message (s : option string) : bool :=
  match s with
  | Some m => truthy_string m
  | None => false
  end.

Definition load_failed_message : string := "Failed to load data".
Definition unknown_error_message : string := "Unknown error".
Definition no_data_message : string :=
  "No data available right now. Please try again later.".
Definition undefined_length_message : string :=
  "Cannot read properties of undefined (reading 'length')".

(** [err instanceof Error ? err.message : "Unknown error"] *)
Definition message_of (err : Thrown) : string :=
  match err with
  | error_object message => message
  | other_value => unknown_error_message
  end.

(** The [catch] block followed by the [finally] block. *)
Definition caught (st : Dashboard.State) (err : Thrown) : Dashboard.State :=
  Dashboard.mkState false (Some (message_of err)) (Dashboard.candles st)
    (Dashboard.analysis st) (Dashboard.meta st) (Dashboard.fetchedAt st).

(** [analyzeNifty(payload.candles)], also when the payload has no
    candles: the read of [candles.length] on [undefined] throws a
    [TypeError]. *)
Definition analyze_payload (candles : option (list Candle))
  : result NiftyAnalysis :=
  match candles with
  | Some cs => analyzeNifty cs
  | None => Throw undefined_length_message
  end.

(** [fetchData]: the state once it has run, from the state before it and
    what [fetch] gave. *)
Definition fetchData (st : Dashboard.State) (fetched : Fetched)
  : Dashboard.State :=
  match fetched with
  | fetch_rejected err => caught st err
  | fetch_resolved ok json =>
      if negb ok then caught st (error_object load_failed_message)
      else
        match json with
        | inl err => caught st err
        | inr payload =>
            if truthy_message (Api.error payload)
            then
              caught st
                (error_object
                   (match Api.error payload with
                    | Some e => e
                    | None => EmptyString
                    end))
            else
              let st1 :=
                Dashboard.mkState (Dashboard.loading st) (Dashboard.error st)
                  (Api.candles payload) (Dashboard.analysis st)
                  (Dashboard.meta st) (Dashboard.fetchedAt st) in
              match analyze_payload (Api.candles payload) with
              | Throw message => caught st1 (error_object message)
              | Ok a =>
                  Dashboard.mkState false (Dashboard.error st)
                    (Api.candles payload) (Some a) (Api.meta payload)
                    (Api.fetchedAt payload)
              end
        end
  end.

(** [ChartPoint extends IndicatorPoint] *)
Record ChartPoint : Type := mkChartPoint {
  point :> IndicatorPoint;
  label : string
}.

(** The branch of the component body that is rendered; the markup of the
    branches is not modelled. *)
Inductive Branch : Type :=
| spinner
| error_panel (message : string)
| charts (analysis : NiftyAnalysis) (chartData : list ChartPoint)
    (lastPoint : ChartPoint).

Section Component.
(** [formatDateLabel], which throws on a string that is not a date. *)
Variable formatDateLabel : string -> result string.

(** [enriched.map((point) => ({ ...point, label: ... }))] *)
Fixpoint label_points (enriched : list IndicatorPoint)
  : result (list ChartPoint) :=
  match enriched with
  | [] => Ok []
  | p :: rest =>
      match formatDateLabel (date p) with
      | Throw message => Throw message
      | Ok l =>
          match label_points rest with
          | Throw message => Throw message
          | Ok points => Ok (mkChartPoint p l :: points)
          end
      end
  end.

(** The [useMemo] that computes [chartData]. *)
Definition chartData (candles : option (list Candle))
  : result (list ChartPoint) :=
  match candles with
  | None => Throw undefined_length_message
  | Some cs =>
      if len cs =? 0 then Ok []
      else label_points (addIndicators cs)
  end.

(** The body of the component after its hooks, down to the read of
    [lastPoint]. *)
Definition rendered_branch (st : Dashboard.State) : result Branch :=
  match chartData (Dashboard.candles st) with
  | Throw message => Throw message
  | Ok data =>
      if Dashboard.loading st then Ok spinner
      else
        match Dashboard.analysis st with
        | Some a =>
            if truthy_message (Dashboard.error st) || (len data =? 0)
            then
              Ok (error_panel
                    (match Dashboard.error st with
                     | Some m => m
                     | None => no_data_message
                     end))
            else
              match at_index data (len data - 1) with
              | Some lastPoint => Ok (charts a data lastPoint)
              | None => Throw type_error_message
              end
        | None =>
            Ok (error_panel
                  (match Dashboard.error st with
                   | Some m => m
                   | None => no_data_message
                   end))
        end
  end.
End Component.

(** *** The route's reply as the dashboard receives it *)

(** The payload [response.json()] gives for a body of the route. *)
Definition payload_of (body : ApiBody) : Api.Response :=
  match body with
  | api_data candles meta source fetchedAt =>
      Api.mkResponse (Some candles) meta (Some fetchedAt) (Some source) None
  | api_error error => Api.mkResponse None None None None (Some error)
  end.

(** What [fetch("/api/nifty")] gives when the reply of the route arrives:
    [response.ok] holds for a status from 200 to 299. *)
Definition delivered (reply : ApiReply) : Fetched :=
  fetch_resolved ((200 <=? status reply) && (status reply <=? 299))
    (inr (payload_of (body reply))).

(** ** The same functions over IEEE 754 doubles

    The second embedding of [src/lib/niftyAnalysis.ts]: the same functions,
    line by line, with every number a binary64 value and every operation
    the correctly rounded one of IEEE 754, as in JavaScript. It is the
    embedding the values of the indicators and of the percentages are
    proved on: sums are taken from left to right, each sum, product and
    quotient is rounded, large values overflow to an infinity and
    [Infinity - Infinity] is NaN. *)

Module Double.

Import SpecFloat.
#[local] Set Warnings "-inexact-float".

(** A JavaScript number. *)
Definition number : Set := float.
Bind Scope float_scope with number.

(** The double nearest to an integer: a numeric literal without decimals,
    and the value of [10 ** digits] for the calls the source makes. *)
Definition of_Z (z : Z) : number :=
  FloatOps.SF2Prim (binary_normalize FloatOps.prec FloatOps.emax z 0 false).

(** The rational a double stands for; NaN and the infinities stand for
    none. *)
Definition rational (x : spec_float) : option Q :=
  match x with
  | S754_zero _ => Some 0%Q
  | S754_finite s m e =>
      Some (inject_Z (if s then Z.neg m else Z.pos m) * 2 ^ e)%Q
  | S754_infinity _ | S754_nan => None
  end.

Definition exact (x : number) : option Q := rational (FloatOps.Prim2SF x).

(** The sign bit of a double (NaN has none). *)
Definition sign_of (x : spec_float) : bool :=
  match x with
  | S754_zero s | S754_infinity s | S754_finite s _ _ => s
  | S754_nan => false
  end.

Definition sign_bit (x : number) : bool := sign_of (FloatOps.Prim2SF x).

(** A number in a condition: NaN and the two zeros are falsy. *)
Definition truthy (x : number) : bool := negb (is_nan x || (x =? 0)%float).

(** [x === y], [x < y] and [x > y] *)
Definition strict_eq (x y : number) : bool := (x =? y)%float.
Definition lt (x y : number) : bool := (x <? y)%float.
Definition gt (x y : number) : bool := (y <? x)%float.

Definition is_positive_zero (x : number) : bool :=
  (x =? 0)%float && negb (sign_bit x).
Definition is_negative_zero (x : number) : bool :=
  (x =? 0)%float && sign_bit x.

(** [Math.max(...xs)] and [Math.min(...xs)]: NaN when an argument is NaN;
    otherwise the arguments are visited in order from -Infinity, resp.
    +Infinity, a positive zero counting as larger than a negative one. *)
Definition max_step (highest x : number) : number :=
  if is_positive_zero x && is_negative_zero highest then x
  else if (highest <? x)%float then x
  else highest.

Definition min_step (lowest x : number) : number :=
  if is_negative_zero x && is_positive_zero lowest then x
  else if (x <? lowest)%float then x
  else lowest.

Definition max_list (xs : list number) : number :=
  if existsb is_nan xs then nan else fold_left max_step xs neg_infinity.

Definition min_list (xs : list number) : number :=
  if existsb is_nan xs then nan else fold_left min_step xs infinity.

Definition max (x y : number) : number := max_list [x; y].
Definition min (x y : number) : number := min_list [x; y].

(** The double of the integer [n], with the sign [s] for a zero; [n] has at
    most 53 binary digits where [Math.round] uses it. *)
Definition integer (s : bool) (n : Z) : spec_float :=
  match n with
  | Z0 => S754_zero s
  | Z.pos p =>
      let k := 53 - Z.pos (digits2_pos p) in
      S754_finite false (Z.to_pos (Z.shiftl (Z.pos p) k)) (- k)
  | Z.neg p =>
      let k := 53 - Z.pos (digits2_pos p) in
      S754_finite true (Z.to_pos (Z.shiftl (Z.pos p) k)) (- k)
  end.

(** [Math.round] on the representation: a double [v * 2 ^ e] with [e < 0]
    goes to the integer [floor (v * 2 ^ e + 1/2)], the nearest one and the
    larger of the two on a tie; zeros, integers, infinities and NaN are
    returned as they are, and a result of zero keeps the sign of the
    argument. *)
Definition round_to_integer (x : spec_float) : spec_float :=
  match x with
  | S754_finite s m e =>
      if e <? 0 then
        let d := 2 ^ (- e) in
        let v := if s then Z.neg m else Z.pos m in
        integer s ((2 * v + d) / (2 * d))
      else x
  | _ => x
  end.

(** [Math.round(x)] *)
Definition Math_round (x : number) : number :=
  FloatOps.SF2Prim (round_to_integer (FloatOps.Prim2SF x)).

(** [function round(value, digits = 2)] *)
Definition round (value : number) (digits : Z) : number :=
  let factor := of_Z (10 ^ digits) in
  (Math_round (value * factor) / factor)%float.

(** The call [round(value)] with the default number of digits. *)
Definition round2 (value : number) : number := round value 2.

Record Candle : Type := mkCandle {
  date : string;
  open : number;
  high : number;
  low : number;
  close : number;
  volume : option number
}.

Record IndicatorPoint : Type := mkIndicatorPoint {
  candle :> Candle;
  sma10 : option number;
  sma20 : option number;
  sma50 : option number;
  rsi14 : option number
}.

Inductive fragment : Type :=
| Text (s : string)
| Value (n : number).

Record NiftyAnalysis : Type := mkNiftyAnalysis {
  lastClose : number;
  previousClose : option number;
  dailyChangePct : option number;
  bias : Bias;
  momentumPct5Day : option number;
  res_rsi14 : option number;
  supportZone : option number;
  resistanceZone : option number;
  nextMoveHeadline : string;
  narrative : list fragment;
  confidence : Confidence
}.

(** [xs[i]] used as a number: [undefined] becomes NaN in arithmetic. *)
Definition num_at (xs : list number) (i : Z) : number :=
  match at_index xs i with
  | Some v => v
  | None => nan
  end.

(** [values.reduce((acc, value) => acc + value, 0)] *)
Definition sum (values : list number) : number :=
  fold_left (fun acc value => (acc + value)%float) values 0%float.

Section Callback.
Variable closes : list number.

Definition windowSlice (index period : Z) : list number :=
  slice closes (Z.max 0 (index - period + 1)) (index + 1).

Definition computeSMA (index period : Z) : option number :=
  if index + 1 <? period then None
  else
    let values := windowSlice index period in
    Some (round (sum values / of_Z period)%float 2).

Definition push_change (index : Z) (gains losses : list number)
  : list number * list number :=
  if index =? 0 then (gains ++ [0%float], losses ++ [0%float])
  else
    let change := (num_at closes index - num_at closes (index - 1))%float in
    (gains ++ [max change 0%float], losses ++ [max (- change)%float 0%float]).

Definition computeRSI (gains losses : list number) (index period : Z)
  : option number :=
  if index <? period then None
  else
    let recentGains := slice gains (index - period + 1) (index + 1) in
    let recentLosses := slice losses (index - period + 1) (index + 1) in
    let averageGain := (sum recentGains / of_Z period)%float in
    let averageLoss := (sum recentLosses / of_Z period)%float in
    if strict_eq averageLoss 0%float then Some 100%float
    else if strict_eq averageGain 0%float then Some 0%float
    else
      let rs := (averageGain / averageLoss)%float in
      Some (round (100 - 100 / (1 + rs))%float 2).

Definition callback (gains losses : list number) (c : Candle) (index : Z)
  : IndicatorPoint * (list number * list number) :=
  let (gains', losses') := push_change index gains losses in
  (mkIndicatorPoint c
     (computeSMA index 10) (computeSMA index 20) (computeSMA index 50)
     (computeRSI gains' losses' index 14),
   (gains', losses')).

Fixpoint map_from (cs : list Candle) (index : Z)
    (gains losses : list number)
  : list IndicatorPoint * (list number * list number) :=
  match cs with
  | [] => ([], (gains, losses))
  | c :: rest =>
      let '(p, (gains', losses')) := callback gains losses c index in
      let '(ps, final) := map_from rest (index + 1) gains' losses' in
      (p :: ps, final)
  end.

(** What the callback pushes at position [i]. *)
Definition pushed_gain (i : nat) : number :=
  match i with
  | O => 0%float
  | S _ =>
      max (num_at closes (Z.of_nat i) - num_at closes (Z.of_nat i - 1))%float
        0%float
  end.

Definition pushed_loss (i : nat) : number :=
  match i with
  | O => 0%float
  | S _ =>
      max (- (num_at closes (Z.of_nat i)
              - num_at closes (Z.of_nat i - 1)))%float
        0%float
  end.

(** The arrays [gains] and [losses] once [n] candles are processed. *)
Definition gains_after (n : nat) : list number := map pushed_gain (seq 0 n).
Definition losses_after (n : nat) : list number := map pushed_loss (seq 0 n).

(** The point the callback returns for candle [c] at position [i]. *)
Definition point_at (i : nat) (c : Candle) : IndicatorPoint :=
  mkIndicatorPoint c
    (computeSMA (Z.of_nat i) 10)
    (computeSMA (Z.of_nat i) 20)
    (computeSMA (Z.of_nat i) 50)
    (computeRSI (gains_after (S i)) (losses_after (S i)) (Z.of_nat i) 14).
End Callback.

Definition closes_of (candles : list Candle) : list number :=
  map (fun candle => close candle) candles.

Definition addIndicators_run (candles : list Candle)
  : list IndicatorPoint * (list number * list number) :=
  let closes := map (fun candle => close candle) candles in
  map_from closes candles 0 [] [].

Definition addIndicators (candles : list Candle) : list IndicatorPoint :=
  fst (addIndicators_run candles).

(** [x ?? fallback] inside a template literal. *)
Definition value_or (x : option number) (fallback : fragment) : fragment :=
  match x with
  | Some v => Value v
  | None => fallback
  end.

(** The block that assigns [bias]. *)
Definition compute_bias (lastClose : number) (sma20 sma50 : option number)
  : Bias :=
  match sma20, sma50 with
  | Some s20, Some s50 =>
      if truthy s20 && truthy s50 then
        if gt lastClose s20 && gt s20 s50 then bullish
        else if lt lastClose s20 && lt s20 s50 then bearish
        else neutral
      else neutral
  | _, _ => neutral
  end.

(** The block that assigns [confidence]. *)
Definition compute_confidence (lastClose : number)
    (rsi14 sma20 sma50 : option number) : Confidence :=
  match rsi14, sma20, sma50 with
  | Some rsi, Some s20, Some s50 =>
      let distanceFromSma := PrimFloat.abs ((lastClose - s20) / s20) in
      if lt distanceFromSma 0.005%float
         && lt (PrimFloat.abs ((s20 - s50) / s50)) 0.003%float
      then conf_low
      else if gt distanceFromSma 0.02%float
              || (gt rsi 68%float || lt rsi 32%float)
      then conf_high
      else conf_medium
  | _, _, _ => conf_medium
  end.

Definition neutral_narrative : list fragment :=
  [Text "Nifty appears range-bound as key moving averages converge. Traders may focus on breakouts from recent levels."].

Definition stretched_narrative (rsi14 : number)
    (sma20 supportZone : option number) : list fragment :=
  [Text "Momentum stays positive with price riding above the 20-day average, though RSI at ";
   Value rsi14;
   Text " signals potential cooling. Pullbacks toward ";
   value_or sma20 (Text "the 20-day SMA");
   Text " could offer dip opportunities while ";
   value_or supportZone (Text "recent support");
   Text " holds."].

Definition continuation_narrative
    (momentumPct5Day resistanceZone supportZone : option number)
  : list fragment :=
  [Text "Price holds above the rising 20- and 50-day averages with ";
   value_or momentumPct5Day (Value 0%float);
   Text "% five-day momentum. A sustained move above ";
   value_or resistanceZone (Text "recent highs");
   Text " would extend the rally, while ";
   value_or supportZone (Text "nearby support");
   Text " remains the risk marker."].

Definition oversold_narrative (rsi14 : number) (supportZone : option number)
  : list fragment :=
  [Text "Nifty is trading beneath its short- and medium-term averages with RSI at ";
   Value rsi14;
   Text ", flagging a stretched sell-off. A pause or mean reversion bounce is possible unless ";
   value_or supportZone (Text "support");
   Text " breaks decisively."].

Definition pressure_narrative
    (momentumPct5Day supportZone sma20 : option number) : list fragment :=
  [Text "Lower highs persist beneath the 20- and 50-day averages. Momentum over the last week sits at ";
   value_or momentumPct5Day (Value 0%float);
   Text "%. Losing ";
   value_or supportZone (Text "recent support");
   Text " would unlock deeper retracements, while reclaiming ";
   value_or sma20 (Text "the 20-day SMA");
   Text " is needed to neutralise the trend."].

(** The two assignments to [nextMoveHeadline] and [narrative]. *)
Definition compute_story (b : Bias)
    (rsi14 sma20 momentumPct5Day supportZone resistanceZone : option number)
  : string * list fragment :=
  match b with
  | bullish =>
      match rsi14 with
      | Some rsi =>
          if gt rsi 68%float
          then (stretched_headline, stretched_narrative rsi sma20 supportZone)
          else (continuation_headline,
                continuation_narrative momentumPct5Day resistanceZone
                  supportZone)
      | None =>
          (continuation_headline,
           continuation_narrative momentumPct5Day resistanceZone supportZone)
      end
  | bearish =>
      match rsi14 with
      | Some rsi =>
          if lt rsi 32%float
          then (oversold_headline, oversold_narrative rsi supportZone)
          else (pressure_headline,
                pressure_narrative momentumPct5Day supportZone sma20)
      | None =>
          (pressure_headline,
           pressure_narrative momentumPct5Day supportZone sma20)
      end
  | neutral => (neutral_headline, neutral_narrative)
  end.

(** The percentage change from [reference] to [value], to 2 decimals. *)
Definition pct_change (value reference : number) : number :=
  round ((value - reference) / reference * 100)%float 2.

Definition analyzeNifty (candles : list Candle) : result NiftyAnalysis :=
  if len candles =? 0 then Throw no_candles_message
  else
    let enriched := addIndicators candles in
    match at_index enriched (len enriched - 1) with
    | None => Throw type_error_message
    | Some lastPoint =>
        let previousPoint :=
          if len enriched >? 1 then at_index enriched (len enriched - 2)
          else None in
        let lastClose := round2 (close lastPoint) in
        let previousClose :=
          match previousPoint with
          | Some p => Some (round2 (close p))
          | None => None
          end in
        let dailyChangePct :=
          match previousPoint with
          | Some p =>
              if truthy (close p)
              then Some (pct_change (close lastPoint) (close p))
              else None
          | None => None
          end in
        let rsi14 := rsi14 lastPoint in
        let sma20 := sma20 lastPoint in
        let sma50 := sma50 lastPoint in
        let fiveDayReference :=
          match at_index candles (len candles - 6) with
          | Some c => Some c
          | None => at_index candles 0
          end in
        let momentumPct5Day :=
          match fiveDayReference with
          | Some ref => Some (pct_change (close lastPoint) (close ref))
          | None => None
          end in
        let recentWindow := slice_from candles (-15) in
        let supportZone :=
          if len recentWindow >? 0
          then Some (round (min_list
                              (map (fun candle => low candle) recentWindow))
                       2)
          else None in
        let resistanceZone :=
          if len recentWindow >? 0
          then Some (round (max_list
                              (map (fun candle => high candle) recentWindow))
                       2)
          else None in
        let bias := compute_bias lastClose sma20 sma50 in
        let confidence := compute_confidence lastClose rsi14 sma20 sma50 in
        let '(nextMoveHeadline, narrative) :=
          compute_story bias rsi14 sma20 momentumPct5Day supportZone
            resistanceZone in
        Ok (mkNiftyAnalysis lastClose previousClose dailyChangePct bias
              momentumPct5Day rsi14 supportZone resistanceZone
              nextMoveHeadline narrative confidence)
    end.

(** A candle sequence with the given closes (all four prices equal). *)
Definition flat_candle (x : number) : Candle := mkCandle "" x x x x None.
Definition flat_candles (closes : list number) : list Candle :=
  map flat_candle closes.

(** *** Reference definitions over doubles *)

(** The close of the candle at position [k]; outside the sequence it is
    NaN, as a read of [undefined] in arithmetic. *)
Definition close_at (candles : list Candle) (k : nat) : number :=
  match nth_error candles k with
  | Some c => close c
  | None => nan
  end.

(** The mean of [f] over the [n] positions ending at [i], as doubles: the
    values are added to 0 from the first position to the last, and the sum
    is divided by [n]; each addition and the division round. *)
Definition trailing_mean (f : nat -> number) (i n : nat) : number :=
  (sum (map f (seq (S i - n) n)) / of_Z (Z.of_nat n))%float.

(** Daily gain and loss at position [i]. *)
Definition gain_at (candles : list Candle) (i : nat) : number :=
  match i with
  | O => 0%float
  | S j => max (close_at candles i - close_at candles j)%float 0%float
  end.

Definition loss_at (candles : list Candle) (i : nat) : number :=
  match i with
  | O => 0%float
  | S j => max (- (close_at candles i - close_at candles j))%float 0%float
  end.

(** The RSI from the two averages. *)
Definition rsi_of_averages (ag al : number) : number :=
  if (al =? 0)%float then 100%float
  else if (ag =? 0)%float then 0%float
  else round2 (100 - 100 / (1 + ag / al))%float.


(** The last point of a sequence. *)
Definition last_point (ps : list IndicatorPoint) : option IndicatorPoint :=
  nth_error ps (List.length ps - 1).

(** The candle before the last, when there are at least two. *)
Definition previous_candle (candles : list Candle) : option Candle :=
  if (1 <? List.length candles)%nat
  then nth_error candles (List.length candles - 2)
  else None.

(** The candle five sessions before the last, or the first candle of a
    shorter sequence. *)
Definition reference_candle (candles : list Candle) : option Candle :=
  if (6 <=? List.length candles)%nat
  then nth_error candles (List.length candles - 6)
  else nth_error candles 0.

(** The trailing window of at most 15 candles. *)
Definition trailing_window (candles : list Candle) : list Candle :=
  skipn (List.length candles - Nat.min 15 (List.length candles)) candles.

(** A number that is NaN or an infinity. *)
Definition not_finite (x : number) : Prop :=
  x = nan \/ x = infinity \/ x = neg_infinity.

(** Order on doubles as a proposition. *)
Definition num_lt (x y : number) : Prop := (x <? y)%float = true.

(** The relative distance as the code computes it, the absolute value of
    the signed ratio, and written as the absolute difference over the
    reference. *)
Definition abs_of_ratio (a b : number) : number :=
  PrimFloat.abs ((a - b) / b).
Definition abs_over_reference (a b : number) : number :=
  (PrimFloat.abs (a - b) / b)%float.

(** The confidence rule over a notion of relative distance: medium when an
    indicator is absent; otherwise low when price and averages are close,
    else high when price is stretched or RSI is extreme, else medium. *)
Definition confidence_rule (distance : number -> number -> number)
    (r : NiftyAnalysis) (lp : IndicatorPoint) : Prop :=
  (rsi14 lp = None \/ sma20 lp = None \/ sma50 lp = None ->
     confidence r = conf_medium)
  /\ (forall rsi s20 s50,
        rsi14 lp = Some rsi -> sma20 lp = Some s20 -> sma50 lp = Some s50 ->
        let distanceFromSma := distance (lastClose r) s20 in
        let indecisive :=
          num_lt distanceFromSma 0.005%float
          /\ num_lt (distance s20 s50) 0.003%float in
        let stretched :=
          num_lt 0.02%float distanceFromSma
          \/ num_lt 68%float rsi \/ num_lt rsi 32%float in
        (indecisive -> confidence r = conf_low)
        /\ (~ indecisive -> stretched -> confidence r = conf_high)
        /\ (~ indecisive -> ~ stretched -> confidence r = conf_medium)).


(** [round(v, 2)] as the claim of rounding half away from zero reads it:
    the product [v * 100] taken exactly, rounded to the nearest integer
    with ties away from zero, and divided by 100. *)
Definition round_half_away_2 (v : number) : option number :=
  match exact v with
  | Some q => Some (of_Z (round_half_away (q * 100)) / 100)%float
  | None => None
  end.


(** Sample closes: a window whose exact mean 1.025 is a tie of [round];
    fifteen closes with one gain of 67 and one loss of 93; fifteen closes
    that swing between 1e308 and 1; fifty closes around 22000; the two
    closes 160 and 183. *)
Definition tie_window : list number := (1.25 :: repeat 1 9)%float.
Definition one_gain_one_loss : list number :=
  (1000 :: 1067 :: repeat 974 13)%float.
Definition around_22000 : list number :=
  (repeat 22002 30 ++ repeat 21996 18 ++ [21999.99; 22112.01])%float.
Definition two_closes : list number := [160; 183]%float.

End Double.

(** ** Arrays: slices and indices *)

Section ArrayFacts.
Context {A : Type}.
Implicit Types xs : list A.

Lemma at_index_nat xs (k : nat) : at_index xs (Z.of_nat k) = nth_error xs k.
Proof.
  unfold at_index.
  destruct (Z.ltb_spec (Z.of_nat k) 0); [lia|].
  now rewrite Nat2Z.id.
Qed.

Lemma slice_in_range xs (a b : nat) :
  (a <= b <= List.length xs)%nat ->
  slice xs (Z.of_nat a) (Z.of_nat b) = firstn (b - a) (skipn a xs).
Proof.
  intros H. unfold slice, len.
  destruct (Z.ltb_spec (Z.of_nat a) 0); [lia|].
  destruct (Z.ltb_spec (Z.of_nat b) 0); [lia|].
  rewrite !Z.min_l by lia.
  rewrite Nat2Z.id. f_equal. lia.
Qed.

(** [xs.slice(-n)] keeps the last [min n (length xs)] elements. *)
Lemma slice_from_last xs (n : nat) :
  slice_from xs (- Z.of_nat (S n))
  = skipn (List.length xs - Nat.min (S n) (List.length xs)) xs.
Proof.
  unfold slice_from, slice, len.
  destruct (Z.ltb_spec (- Z.of_nat (S n)) 0); [|lia].
  destruct (Z.ltb_spec (Z.of_nat (List.length xs)) 0); [lia|].
  rewrite Z.min_id.
  set (k := Z.max _ 0).
  assert (Hk : Z.to_nat k
               = (List.length xs - Nat.min (S n) (List.length xs))%nat)
    by (unfold k; lia).
  rewrite Hk. apply firstn_all2. rewrite length_skipn. lia.
Qed.
End ArrayFacts.

Lemma firstn_seq_window (n start k : nat) :
  (n <= k)%nat -> firstn n (seq start k) = seq start n.
Proof.
  revert start k. induction n as [|n IH]; intros start k H; [reflexivity|].
  destruct k as [|k]; [lia|]. simpl. f_equal. apply IH. lia.
Qed.

(** An array given by its elements: slices are windows of positions. *)
Lemma slice_tabulate {A} (f : nat -> A) (n a b : nat) :
  (a <= b <= n)%nat ->
  slice (map f (seq 0 n)) (Z.of_nat a) (Z.of_nat b) = map f (seq a (b - a)).
Proof.
  intros H. rewrite slice_in_range by (rewrite length_map, length_seq; lia).
  rewrite skipn_map, firstn_map, skipn_seq, firstn_seq_window by lia.
  reflexivity.
Qed.

Lemma nth_error_tabulate {A} (f : nat -> A) (n k : nat) :
  (k < n)%nat -> nth_error (map f (seq 0 n)) k = Some (f k).
Proof.
  intros H. rewrite nth_error_map, nth_error_seq.
  destruct (Nat.ltb_spec k n); [reflexivity | lia].
Qed.

Lemma tabulate_nth_error {A B} (g : A -> B) (d : nat -> B) (xs : list A) :
  (forall k x, nth_error xs k = Some x -> d k = g x) ->
  map g xs = map d (seq 0 (List.length xs)).
Proof.
  intros H. apply nth_error_ext. intros k.
  rewrite !nth_error_map, nth_error_seq.
  destruct (Nat.ltb_spec k (List.length xs)) as [Hk|Hk].
  - destruct (nth_error xs k) eqn:E; simpl.
    + now rewrite (H _ _ E).
    + apply nth_error_None in E. lia.
  - apply nth_error_None in Hk. now rewrite Hk.
Qed.

(** ** The run of [addIndicators] *)

Section Run.
Variable closes : list number.

Lemma push_change_after (n : nat) :
  push_change closes (Z.of_nat n) (gains_after closes n) (losses_after closes n)
  = (gains_after closes (S n), losses_after closes (S n)).
Proof.
  unfold push_change, gains_after, losses_after.
  rewrite !seq_S, !map_app. simpl.
  destruct n as [|n]; [reflexivity|].
  destruct (Z.eqb_spec (Z.of_nat (S n)) 0); [lia | reflexivity].
Qed.

Lemma map_from_run (cs : list Candle) : forall n : nat,
  map_from closes cs (Z.of_nat n) (gains_after closes n) (losses_after closes n)
  = (map (fun ic => point_at closes (fst ic) (snd ic))
       (combine (seq n (List.length cs)) cs),
     (gains_after closes (n + List.length cs),
   losses_after closes (n + List.length cs))).
Proof.
  induction cs as [|c rest IH]; intros n.
  - simpl. now rewrite Nat.add_0_r.
  - cbn [map_from]. unfold callback. rewrite push_change_after.
    replace (Z.of_nat n + 1) with (Z.of_nat (S n)) by lia.
    rewrite IH. cbn [List.length seq combine map fst snd].
    replace (S n + List.length rest)%nat
      with (n + S (List.length rest))%nat by lia.
    reflexivity.
Qed.
End Run.

Lemma addIndicators_run_eq (candles : list Candle) :
  addIndicators_run candles
  = (map (fun ic => point_at (closes_of candles) (fst ic) (snd ic))
       (combine (seq 0 (List.length candles)) candles),
     (gains_after (closes_of candles) (List.length candles),
      losses_after (closes_of candles) (List.length candles))).
Proof.
  unfold addIndicators_run. fold (closes_of candles).
  exact (map_from_run (closes_of candles) candles 0).
Qed.

Lemma nth_error_combine_seq {A} (xs : list A) : forall (start k : nat),
  nth_error (combine (seq start (List.length xs)) xs) k
  = option_map (fun x => ((start + k)%nat, x)) (nth_error xs k).
Proof.
  induction xs as [|x rest IH]; intros start k.
  - destruct k; reflexivity.
  - destruct k as [|k]; simpl.
    + now rewrite Nat.add_0_r.
    + rewrite IH. destruct (nth_error rest k); simpl; [|reflexivity].
      do 2 f_equal. lia.
Qed.

(** The point at each position is the callback's point for the candle at
    that position. *)
Lemma addIndicators_nth (candles : list Candle) (i : nat) :
  nth_error (addIndicators candles) i
  = option_map (point_at (closes_of candles) i) (nth_error candles i).
Proof.
  unfold addIndicators. rewrite addIndicators_run_eq. cbn [fst].
  rewrite nth_error_map, nth_error_combine_seq.
  destruct (nth_error candles i); reflexivity.
Qed.

Lemma addIndicators_length (candles : list Candle) :
  List.length (addIndicators candles) = List.length candles.
Proof.
  unfold addIndicators. rewrite addIndicators_run_eq. cbn [fst].
  rewrite length_map, length_combine, length_seq. lia.
Qed.

(** ** Exact arithmetic on finite numbers *)

Section ExactArithmetic.
Local Open Scope Q_scope.



Lemma Qeq_bool_false_iff (x y : Q) : Qeq_bool x y = false <-> ~ x == y.
Proof.
  split.
  - apply Qeq_bool_neq.
  - intros H. destruct (Qeq_bool x y) eqn:E; [|reflexivity].
    apply Qeq_bool_iff in E. contradiction.
Qed.

Lemma fold_Qplus (qs : list Q) : forall a, fold_left Qplus qs a == a + Qsum qs.
Proof.
  induction qs as [|q rest IH]; intros a; simpl.
  - ring.
  - rewrite IH. ring.
Qed.

Lemma sum_from_Fin (qs : list Q) : forall a,
  fold_left (fun acc value => (acc + value)%js) (map Fin qs) (Fin a)
  = Fin (fold_left Qplus qs a).
Proof.
  induction qs as [|q rest IH]; intros a; simpl; [reflexivity | apply IH].
Qed.

(** The sum of finite numbers is finite, and is their exact sum. *)
Lemma sum_Fin (qs : list Q) : exists s, sum (map Fin qs) = Fin s /\ s == Qsum qs.
Proof.
  exists (fold_left Qplus qs 0). split.
  - apply sum_from_Fin.
  - rewrite fold_Qplus. ring.
Qed.

Lemma div_Fin (a b : Q) : ~ b == 0 -> (Fin a / Fin b)%js = Fin (a / b).
Proof.
  intros Hb. unfold div.
  now rewrite (proj2 (Qeq_bool_false_iff b 0) Hb).
Qed.

(** [round] does not depend on the representation of a rational. *)
Lemma round_Fin_compat (a b : Q) (digits : Z) :
  a == b -> round (Fin a) digits = round (Fin b) digits.
Proof.
  intros H. unfold round, Math_round, mul.
  assert (E : Qfloor (a * 10 ^ digits + (1 # 2))
              = Qfloor (b * 10 ^ digits + (1 # 2))) by now rewrite H.
  now rewrite E.
Qed.


Lemma Qsum_nonneg (qs : list Q) : (forall q, In q qs -> 0 <= q) -> 0 <= Qsum qs.
Proof.
  induction qs as [|q rest IH]; intros H; simpl.
  - apply Qle_refl.
  - assert (0 <= q) by (apply H; now left).
    assert (0 <= Qsum rest) by (apply IH; intros; apply H; now right).
    lra.
Qed.

End ExactArithmetic.

(** ** The closes and the pushed gains and losses, by position *)

Section Positions.
Variable candles : list Candle.
Let closes := closes_of candles.
Let n := List.length candles.

Lemma closes_tabulate :
  closes = map (fun k => Fin (close_at candles k)) (seq 0 n).
Proof.
  unfold closes, closes_of, n. apply tabulate_nth_error.
  intros k c E. unfold close_at. now rewrite E.
Qed.

Lemma num_at_closes (k : nat) :
  (k < n)%nat -> num_at closes (Z.of_nat k) = Fin (close_at candles k).
Proof.
  intros Hk. unfold num_at. rewrite at_index_nat, closes_tabulate.
  now rewrite nth_error_tabulate.
Qed.

Lemma max_zero_Fin (q : Q) : max (Fin q) (of_Z 0) = Fin (Qmax q 0).
Proof.
  unfold max, lt, of_Z, Qlt_bool, Qle_bool, Qmax, GenericMinMax.gmax, Qcompare.
  simpl. rewrite Z.leb_compare, Z.mul_1_r.
  rewrite (Z.compare_antisym (Qnum q) 0).
  destruct (Qnum q ?= 0); reflexivity.
Qed.

Lemma pushed_gain_at (i : nat) :
  (i < n)%nat -> pushed_gain closes i = Fin (gain_at candles i).
Proof.
  intros Hi. destruct i as [|j]; [reflexivity|].
  unfold pushed_gain, gain_at.
  replace (Z.of_nat (S j) - 1) with (Z.of_nat j) by lia.
  rewrite !num_at_closes by lia. apply max_zero_Fin.
Qed.

Lemma pushed_loss_at (i : nat) :
  (i < n)%nat -> pushed_loss closes i = Fin (loss_at candles i).
Proof.
  intros Hi. destruct i as [|j]; [reflexivity|].
  unfold pushed_loss, loss_at.
  replace (Z.of_nat (S j) - 1) with (Z.of_nat j) by lia.
  rewrite !num_at_closes by lia. apply max_zero_Fin.
Qed.

Lemma gains_after_tabulate (k : nat) :
  (k <= n)%nat ->
  gains_after closes k = map (fun i => Fin (gain_at candles i)) (seq 0 k).
Proof.
  intros Hk. apply map_ext_in. intros i Hi. apply in_seq in Hi.
  apply pushed_gain_at. lia.
Qed.

Lemma losses_after_tabulate (k : nat) :
  (k <= n)%nat ->
  losses_after closes k = map (fun i => Fin (loss_at candles i)) (seq 0 k).
Proof.
  intros Hk. apply map_ext_in. intros i Hi. apply in_seq in Hi.
  apply pushed_loss_at. lia.
Qed.
End Positions.

(** ** SMA and RSI of a point, in exact arithmetic *)

Section PointFacts.
Local Open Scope Q_scope.
Variable candles : list Candle.
Let closes := closes_of candles.
Let n := List.length candles.

(** The mean the code computes over a trailing window of an array of
    finite numbers is the exact mean. *)
Lemma window_mean (f : nat -> Q) (size i p : nat) :
  (0 < p <= S i)%nat -> (S i <= size)%nat ->
  exists m,
    (sum (slice (map (fun k => Fin (f k)) (seq 0 size))
            (Z.of_nat (S i - p)) (Z.of_nat (S i)))
     / of_Z (Z.of_nat p))%js = Fin m
    /\ m == trailing_mean f i p.
Proof.
  intros Hp Hi.
  rewrite slice_tabulate by lia.
  replace (S i - (S i - p))%nat with p by lia.
  rewrite <- (map_map f Fin).
  destruct (sum_Fin (map f (seq (S i - p) p))) as (s & Es & Hs).
  rewrite Es. unfold of_Z.
  assert (Hnz : ~ inject_Z (Z.of_nat p) == 0).
  { intros E. unfold Qeq in E. simpl in E. lia. }
  rewrite div_Fin by exact Hnz.
  eexists. split; [reflexivity|].
  unfold trailing_mean, over_window. now rewrite Hs.
Qed.

Lemma computeSMA_mean (i : nat) (period : Z) :
  (i < n)%nat -> (0 < period)%Z ->
  computeSMA closes (Z.of_nat i) period
  = if (period <=? Z.of_nat i + 1)%Z
    then Some (round2 (Fin (trailing_mean (close_at candles) i
                              (Z.to_nat period))))
    else None.
Proof.
  intros Hi Hp. unfold computeSMA.
  destruct (Z.ltb_spec (Z.of_nat i + 1) period) as [Hlt|Hge];
    destruct (Z.leb_spec period (Z.of_nat i + 1)); try lia; [reflexivity|].
  unfold windowSlice.
  replace (Z.max 0 (Z.of_nat i - period + 1))
    with (Z.of_nat (S i - Z.to_nat period)) by lia.
  replace (Z.of_nat i + 1)%Z with (Z.of_nat (S i)) by lia.
  replace period with (Z.of_nat (Z.to_nat period)) at 2 by lia.
  unfold closes. rewrite closes_tabulate.
  destruct (window_mean (close_at candles) (List.length candles) i
              (Z.to_nat period)) as (m & Em & Hm); [lia | fold n; lia |].
  rewrite Em. f_equal. apply round_Fin_compat, Hm.
Qed.

Lemma gain_at_nonneg (i : nat) : 0 <= gain_at candles i.
Proof.
  destruct i; simpl; [apply Qle_refl | apply Q.le_max_r].
Qed.

Lemma loss_at_nonneg (i : nat) : 0 <= loss_at candles i.
Proof.
  destruct i; simpl; [apply Qle_refl | apply Q.le_max_r].
Qed.

Lemma trailing_mean_nonneg (f : nat -> Q) (i p : nat) :
  (forall k, 0 <= f k) -> (0 < p)%nat -> 0 <= trailing_mean f i p.
Proof.
  intros Hf Hp. unfold trailing_mean.
  apply Qle_shift_div_l.
  - unfold Qlt. simpl. lia.
  - rewrite Qmult_0_l. apply Qsum_nonneg. intros q Hq.
    unfold over_window in Hq. apply in_map_iff in Hq.
    destruct Hq as (k & <- & _). apply Hf.
Qed.

Lemma average_gain_nonneg (i : nat) : 0 <= average_gain candles i.
Proof. apply trailing_mean_nonneg; [apply gain_at_nonneg | lia]. Qed.

Lemma average_loss_nonneg (i : nat) : 0 <= average_loss candles i.
Proof. apply trailing_mean_nonneg; [apply loss_at_nonneg | lia]. Qed.


Lemma computeRSI_averages (i : nat) :
  (14 <= i < n)%nat ->
  computeRSI (gains_after closes (S i)) (losses_after closes (S i))
    (Z.of_nat i) 14
  = Some (rsi_of_averages (average_gain candles i) (average_loss candles i)).
Proof.
  intros Hi. unfold computeRSI.
  destruct (Z.ltb_spec (Z.of_nat i) 14); [lia|].
  replace (Z.of_nat i - 14 + 1)%Z with (Z.of_nat (S i - 14)) by lia.
  replace (Z.of_nat i + 1)%Z with (Z.of_nat (S i)) by lia.
  unfold closes.
  rewrite gains_after_tabulate, losses_after_tabulate by lia.
  change 14%Z with (Z.of_nat 14).
  destruct (window_mean (gain_at candles) (S i) i 14)
    as (ag & Eg & Hg); [lia | lia |].
  destruct (window_mean (loss_at candles) (S i) i 14)
    as (al & El & Hl); [lia | lia |].
  rewrite Eg, El. fold (average_gain candles i) in Hg.
  fold (average_loss candles i) in Hl.
  pose proof (average_gain_nonneg i) as Hg0.
  pose proof (average_loss_nonneg i) as Hl0.
  unfold rsi_of_averages, strict_eq, of_Z.
  change (inject_Z 0) with 0.
  rewrite <- Hg, <- Hl in *.
  destruct (Qeq_bool al 0) eqn:Eal; [reflexivity|].
  destruct (Qeq_bool ag 0) eqn:Eag; [reflexivity|].
  apply Qeq_bool_false_iff in Eal. apply Qeq_bool_false_iff in Eag.
  rewrite (div_Fin ag al Eal).
  assert (Hrs : 0 <= ag / al).
  { apply Qle_shift_div_l; lra. }
  cbn [add]. rewrite div_Fin by (change (inject_Z 1) with 1; lra).
  f_equal. apply round_Fin_compat.
  unfold rsi_raw. change (inject_Z 100) with 100.
  change (inject_Z 1) with 1. rewrite Hg, Hl. reflexivity.
Qed.
End PointFacts.

(** ** Properties of [addIndicators] *)

(** C8: [addIndicators] returns one point per candle, in the same order,
    and the point at each position carries the date, open, high, low, close
    and volume of the candle at that position unchanged; an empty input
    gives an empty output. *)
Theorem addIndicators_one_point_per_candle (candles : list Candle) :
  List.length (addIndicators candles) = List.length candles
  /\ map candle (addIndicators candles) = candles
  /\ (forall i c, nth_error candles i = Some c ->
        exists p, nth_error (addIndicators candles) i = Some p
                  /\ date p = date c /\ open p = open c /\ high p = high c
                  /\ low p = low c /\ close p = close c
                  /\ volume p = volume c)
  /\ addIndicators [] = [].
Proof.
  split; [apply addIndicators_length|].
  split.
  - apply nth_error_ext. intros i.
    rewrite nth_error_map, addIndicators_nth.
    destruct (nth_error candles i); reflexivity.
  - split; [|reflexivity].
    intros i c E. exists (point_at (closes_of candles) i c).
    rewrite addIndicators_nth, E. repeat split.
Qed.


Lemma rsi14_point (candles : list Candle) (i : nat) (c : Candle) :
  (i < List.length candles)%nat ->
  rsi14 (point_at (closes_of candles) i c)
  = if (i <? 14)%nat then None
    else Some (rsi_of_averages (average_gain candles i)
                 (average_loss candles i)).
Proof.
  intros Hi. cbn [rsi14 point_at].
  destruct (Nat.ltb_spec i 14) as [Hlt|Hge].
  - unfold computeRSI.
    destruct (Z.ltb_spec (Z.of_nat i) 14); [reflexivity | lia].
  - apply computeRSI_averages. lia.
Qed.

Section RoundBounds.
Local Open Scope Q_scope.



End RoundBounds.

Section RsiBounds.
Local Open Scope Q_scope.

End RsiBounds.


(** ** The record [analyzeNifty] returns *)

Lemma last_point_addIndicators (candles : list Candle) :
  candles <> [] ->
  exists lp c,
    last_point (addIndicators candles) = Some lp
    /\ nth_error candles (List.length candles - 1) = Some c
    /\ lp = point_at (closes_of candles) (List.length candles - 1) c.
Proof.
  intros Hne. unfold last_point.
  rewrite addIndicators_length, addIndicators_nth.
  destruct (nth_error candles (List.length candles - 1)) as [c|] eqn:E.
  - exists (point_at (closes_of candles) (List.length candles - 1) c), c.
    repeat split.
  - apply nth_error_None in E. destruct candles; [contradiction | simpl in E; lia].
Qed.

Lemma recent_window_eq (candles : list Candle) :
  slice_from candles (-15) = trailing_window candles.
Proof. exact (slice_from_last candles 14). Qed.

Lemma trailing_window_length (candles : list Candle) :
  List.length (trailing_window candles)
  = Nat.min 15 (List.length candles).
Proof. unfold trailing_window. rewrite length_skipn. lia. Qed.

(** On a non-empty sequence [analyzeNifty] returns a record, whose fields
    are the following functions of the candles and of the last point. *)
Lemma analyzeNifty_fields (candles : list Candle) :
  candles <> [] ->
  exists r lp,
    analyzeNifty candles = Ok r
    /\ last_point (addIndicators candles) = Some lp
    /\ lastClose r = round2 (Fin (close lp))
    /\ res_rsi14 r = rsi14 lp
    /\ bias r = compute_bias (lastClose r) (sma20 lp) (sma50 lp)
    /\ confidence r
       = compute_confidence (lastClose r) (rsi14 lp) (sma20 lp) (sma50 lp)
    /\ (nextMoveHeadline r, narrative r)
       = compute_story (bias r) (rsi14 lp) (sma20 lp) (momentumPct5Day r)
           (supportZone r) (resistanceZone r)
    /\ supportZone r
       = Some (round2 (min_list (map (fun candle => Fin (low candle))
                                   (trailing_window candles))))
    /\ resistanceZone r
       = Some (round2 (max_list (map (fun candle => Fin (high candle))
                                   (trailing_window candles))))
    /\ momentumPct5Day r <> None.
Proof.
  intros Hne.
  destruct (last_point_addIndicators candles Hne) as (lp & c & Elp & _ & _).
  assert (Hfirst : exists c0, at_index candles 0 = Some c0)
    by (destruct candles; [contradiction | eexists; reflexivity]).
  destruct Hfirst as (c0 & Efirst).
  unfold analyzeNifty. rewrite Efirst.
  assert (Hlen : (0 < List.length candles)%nat)
    by (destruct candles; [contradiction | simpl; lia]).
  destruct (Z.eqb_spec (len candles) 0) as [E0|_]; [unfold len in E0; lia|].
  replace (len (addIndicators candles) - 1)
    with (Z.of_nat (List.length (addIndicators candles) - 1))
    by (unfold len; rewrite addIndicators_length; lia).
  rewrite at_index_nat. unfold last_point in Elp. rewrite Elp.
  rewrite recent_window_eq.
  assert (Hw : (len (trailing_window candles) >? 0) = true).
  { unfold len. rewrite trailing_window_length. apply Z.gtb_lt. lia. }
  rewrite Hw.
  destruct (at_index candles (len candles - 6)) as [c6|];
    match goal with
    | |- context [compute_story ?b ?a1 ?a2 ?a3 ?a4 ?a5] =>
        destruct (compute_story b a1 a2 a3 a4 a5) as [headline story] eqn:Es
    end;
    (eexists _, lp; split; [reflexivity|]; split; [exact Elp|]; cbn;
     repeat split; try (symmetry; exact Es); discriminate).
Qed.

(** C3: [analyzeNifty] fails with the "no candles" error if and only if
    the candle sequence is empty; on every non-empty sequence it returns a
    record, complete with momentum, support and resistance, and it has no
    other error. *)
Theorem analyzeNifty_fails_iff_empty (candles : list Candle) :
  (analyzeNifty candles = Throw no_candles_message <-> candles = [])
  /\ (candles <> [] ->
        exists r, analyzeNifty candles = Ok r
                  /\ momentumPct5Day r <> None
                  /\ supportZone r <> None
                  /\ resistanceZone r <> None)
  /\ (forall message, analyzeNifty candles = Throw message ->
        candles = [] /\ message = no_candles_message).
Proof.
  destruct candles as [|c rest].
  - split; [split; reflexivity|]. split; [intros H; contradiction|].
    intros message E. cbn in E. split; congruence.
  - assert (Hne : c :: rest <> []) by discriminate.
    destruct (analyzeNifty_fields _ Hne)
      as (r & lp & Er & _ & _ & _ & _ & _ & _ & Es & Et & Em).
    rewrite Er. split; [split; discriminate|].
    split; [|intros message E; discriminate].
    intros _. exists r. rewrite Es, Et.
    repeat split; try exact Em; discriminate.
Qed.

(** ** Order on numbers *)




(** ** Bias *)


(** ** Headline and narrative *)


(** ** Support and resistance *)

Section Extremes.
Local Open Scope Q_scope.





End Extremes.



(** ** Rounding *)

Section Rounding.
Local Open Scope Q_scope.

Lemma Qfloor_unique (x : Q) (k : Z) :
  inject_Z k <= x -> x < inject_Z (k + 1) -> Qfloor x = k.
Proof.
  intros Hlo Hhi.
  apply Qfloor_resp_le in Hlo. rewrite Qfloor_Z in Hlo.
  assert (Hlt : (Qfloor x < k + 1)%Z).
  { rewrite Zlt_Qlt. eapply Qle_lt_trans; [apply Qfloor_le | exact Hhi]. }
  lia.
Qed.

Lemma Qnum_sign_neg (x : Q) : x < 0 -> Z.sgn (Qnum x) = (-1)%Z.
Proof.
  intros H. unfold Qlt in H. simpl in H. lia.
Qed.

Lemma Qnum_sign_pos (x : Q) : 0 < x -> Z.sgn (Qnum x) = 1%Z.
Proof.
  intros H. unfold Qlt in H. simpl in H. lia.
Qed.

Lemma Qnum_sign_zero (x : Q) : x == 0 -> Z.sgn (Qnum x) = 0%Z.
Proof.
  intros H. unfold Qeq in H. simpl in H. lia.
Qed.

(** [Math.round] against rounding half away from zero: the same on
    non-negative numbers and off ties, one above on a negative tie. *)
Lemma floor_half_vs_half_away (x : Q) :
  ((0 <= x \/ ~ is_tie x) ->
     Qfloor (x + (1 # 2)) = round_half_away x)
  /\ (x < 0 /\ is_tie x ->
        Qfloor (x + (1 # 2)) = (round_half_away x + 1)%Z).
Proof.
  unfold round_half_away, is_tie.
  destruct (Qlt_le_dec x 0) as [Hneg|Hpos].
  - rewrite (Qnum_sign_neg x Hneg).
    assert (Habs : Qabs x + (1 # 2) == - x + (1 # 2))
      by (rewrite Qabs_neg by lra; reflexivity).
    rewrite Habs.
    set (m := Qfloor (- x + (1 # 2))).
    pose proof (Qfloor_le (- x + (1 # 2))) as Hm1.
    pose proof (Qlt_floor (- x + (1 # 2))) as Hm2.
    fold m in Hm1, Hm2. rewrite inject_Z_plus in Hm2.
    change (inject_Z 1) with 1 in Hm2.
    destruct (Qeq_dec x (- inject_Z m + (1 # 2))) as [Htie|Hnot].
    + (* x is half way between [-m] and [-m + 1] *)
      assert (Hfx : Qfloor x = (- m)%Z).
      { apply Qfloor_unique; rewrite ?inject_Z_plus, inject_Z_opp;
          change (inject_Z 1) with 1; lra. }
      assert (Hn : Qfloor (x + (1 # 2)) = (- m + 1)%Z).
      { apply Qfloor_unique; rewrite !inject_Z_plus, inject_Z_opp;
          change (inject_Z 1) with 1; lra. }
      split.
      * intros [H | H]; [lra|]. exfalso. apply H.
        rewrite Hfx, inject_Z_opp. lra.
      * intros _. rewrite Hn. lia.
    + assert (Hn : Qfloor (x + (1 # 2)) = (- m)%Z).
      { apply Qfloor_unique; rewrite ?inject_Z_plus, inject_Z_opp;
          change (inject_Z 1) with 1; [lra|].
        apply Qle_lt_or_eq in Hm1. destruct Hm1 as [Hm1|Hm1]; [lra|].
        exfalso. apply Hnot. lra. }
      split.
      * intros _. rewrite Hn. lia.
      * intros [_ Htie]. exfalso. apply Hnot.
        pose proof (Qfloor_le x) as Hx1. pose proof (Qlt_floor x) as Hx2.
        rewrite inject_Z_plus in Hx2. change (inject_Z 1) with 1 in Hx2.
        assert (Hm : m = (- Qfloor x)%Z).
        { apply Qfloor_unique; rewrite ?inject_Z_plus, inject_Z_opp;
            change (inject_Z 1) with 1; lra. }
        rewrite Hm, inject_Z_opp. lra.
  - split; [|intros [H _]; lra].
    intros _.
    assert (Habs : Qabs x + (1 # 2) == x + (1 # 2))
      by (rewrite Qabs_pos by exact Hpos; reflexivity).
    rewrite Habs.
    apply Qle_lt_or_eq in Hpos. destruct Hpos as [Hpos|Hzero].
    + rewrite (Qnum_sign_pos x Hpos). lia.
    + rewrite (Qnum_sign_zero x) by (now symmetry).
      assert (E : x + (1 # 2) == 1 # 2) by lra.
      rewrite E. reflexivity.
Qed.
End Rounding.

(** ** The properties on sample sequences *)




Example rising_sixty_is_stretched :
  exists r,
    analyzeNifty rising_sixty = Ok r
    /\ bias r = bullish
    /\ res_rsi14 r = Some (Fin 100)
    /\ nextMoveHeadline r = "Uptrend extended but stretched"%string
    /\ confidence r = conf_high.
Proof. eexists. split; [vm_compute; reflexivity|]. repeat split. Qed.

(** A single candle: nothing to compare with, so no previous close, a
    neutral bias and a medium confidence; support and resistance are the
    candle's low and high. *)
Example single_candle :
  exists r,
    analyzeNifty [mkCandle "2024-01-01" 100 110 95 105 None] = Ok r
    /\ previousClose r = None
    /\ dailyChangePct r = None
    /\ bias r = neutral
    /\ confidence r = conf_medium
    /\ nextMoveHeadline r = "Sideways consolidation likely"%string
    /\ (exists s t, supportZone r = Some s /\ (s == Fin 95)%js
                    /\ resistanceZone r = Some t /\ (t == Fin 110)%js).
Proof.
  eexists. split; [vm_compute; reflexivity|].
  repeat split. eexists _, _. repeat split.
Qed.

(** ** Further properties of [round] *)



(** ** Indicators depend on the candles up to the point only *)

Lemma close_at_app_l (xs ys : list Candle) (k : nat) :
  (k < List.length xs)%nat -> close_at (xs ++ ys) k = close_at xs k.
Proof.
  intros H. unfold close_at. now rewrite nth_error_app1.
Qed.

Lemma close_at_app_r (older recent : list Candle) (k : nat) :
  close_at (older ++ recent) (List.length older + k) = close_at recent k.
Proof.
  unfold close_at. rewrite nth_error_app2 by lia.
  now replace (List.length older + k - List.length older)%nat with k by lia.
Qed.

Lemma gain_at_app_l (xs ys : list Candle) (k : nat) :
  (k < List.length xs)%nat -> gain_at (xs ++ ys) k = gain_at xs k.
Proof.
  intros H. destruct k as [|j]; [reflexivity|]. unfold gain_at.
  now rewrite !close_at_app_l by lia.
Qed.

Lemma loss_at_app_l (xs ys : list Candle) (k : nat) :
  (k < List.length xs)%nat -> loss_at (xs ++ ys) k = loss_at xs k.
Proof.
  intros H. destruct k as [|j]; [reflexivity|]. unfold loss_at.
  now rewrite !close_at_app_l by lia.
Qed.

Lemma gain_at_app_r (older recent : list Candle) (k : nat) :
  (0 < k)%nat ->
  gain_at (older ++ recent) (List.length older + k) = gain_at recent k.
Proof.
  intros H. destruct k as [|j]; [lia|].
  replace (List.length older + S j)%nat with (S (List.length older + j))
    by lia.
  unfold gain_at.
  replace (S (List.length older + j)) with (List.length older + S j)%nat
    by lia.
  now rewrite !close_at_app_r.
Qed.

Lemma loss_at_app_r (older recent : list Candle) (k : nat) :
  (0 < k)%nat ->
  loss_at (older ++ recent) (List.length older + k) = loss_at recent k.
Proof.
  intros H. destruct k as [|j]; [lia|].
  replace (List.length older + S j)%nat with (S (List.length older + j))
    by lia.
  unfold loss_at.
  replace (S (List.length older + j)) with (List.length older + S j)%nat
    by lia.
  now rewrite !close_at_app_r.
Qed.

Lemma trailing_mean_ext (f g : nat -> Q) (i n : nat) :
  (n <= S i)%nat ->
  (forall k, (S i - n <= k <= i)%nat -> f k = g k) ->
  trailing_mean f i n = trailing_mean g i n.
Proof.
  intros Hn H. unfold trailing_mean, over_window. do 2 f_equal.
  apply map_ext_in. intros k Hk. apply in_seq in Hk. apply H. lia.
Qed.

Lemma seq_add_map (m len : nat) : forall start,
  seq (m + start) len = map (Nat.add m) (seq start len).
Proof.
  induction len as [|len IH]; intros start; [reflexivity|].
  simpl. f_equal. rewrite <- IH. f_equal. lia.
Qed.

Lemma trailing_mean_shift (f g : nat -> Q) (m i n : nat) :
  (n <= S i)%nat ->
  (forall k, (S i - n <= k <= i)%nat -> f (m + k)%nat = g k) ->
  trailing_mean f (m + i) n = trailing_mean g i n.
Proof.
  intros Hn H. unfold trailing_mean, over_window. do 2 f_equal.
  replace (S (m + i) - n)%nat with (m + (S i - n))%nat by lia.
  rewrite seq_add_map, map_map.
  apply map_ext_in. intros k Hk. apply in_seq in Hk. apply H. lia.
Qed.

(** The point at a position, from the exact means. *)
Lemma point_at_exact (candles : list Candle) (i : nat) (c : Candle) :
  (i < List.length candles)%nat ->
  let sma period :=
    if period <=? Z.of_nat i + 1
    then Some (round2 (Fin (trailing_mean (close_at candles) i
                              (Z.to_nat period))))
    else None in
  point_at (closes_of candles) i c
  = mkIndicatorPoint c (sma 10) (sma 20) (sma 50)
      (if (i <? 14)%nat then None
       else Some (rsi_of_averages (average_gain candles i)
                    (average_loss candles i))).
Proof.
  intros Hi sma.
  rewrite <- (rsi14_point candles i c Hi).
  unfold sma. rewrite <- !(computeSMA_mean candles i) by (exact Hi || lia).
  reflexivity.
Qed.

(** X2: [addIndicators] never looks ahead: the points computed for a
    sequence are unchanged when more candles are appended to it. *)
Theorem addIndicators_is_causal (candles later : list Candle) :
  firstn (List.length candles) (addIndicators (candles ++ later))
  = addIndicators candles.
Proof.
  apply nth_error_ext. intros i.
  rewrite nth_error_firstn, !addIndicators_nth.
  destruct (Nat.ltb_spec i (List.length candles)) as [Hi|Hi].
  - rewrite nth_error_app1 by exact Hi.
    destruct (nth_error candles i) as [c|]; [|reflexivity]. cbn. f_equal.
    rewrite !point_at_exact by (rewrite ?length_app; lia). cbv zeta.
    unfold average_gain, average_loss.
    destruct (Nat.ltb_spec i 14);
      repeat match goal with
        | |- context [?p <=? Z.of_nat i + 1] =>
            destruct (Z.leb_spec p (Z.of_nat i + 1))
        end;
      rewrite ?(trailing_mean_ext (close_at (candles ++ later))
                  (close_at candles))
        by (lia || (intros; apply close_at_app_l; lia));
      rewrite ?(trailing_mean_ext (gain_at (candles ++ later))
                  (gain_at candles))
        by (lia || (intros; apply gain_at_app_l; lia));
      rewrite ?(trailing_mean_ext (loss_at (candles ++ later))
                  (loss_at candles))
        by (lia || (intros; apply loss_at_app_l; lia));
      reflexivity.
  - apply nth_error_None in Hi. now rewrite Hi.
Qed.

(** ** Every field of the record *)

Lemma previous_point_candle (candles : list Candle) :
  (if len (addIndicators candles) >? 1
   then at_index (addIndicators candles) (len (addIndicators candles) - 2)
   else None)
  = option_map (point_at (closes_of candles) (List.length candles - 2))
      (previous_candle candles).
Proof.
  unfold previous_candle, len. rewrite addIndicators_length.
  destruct (Nat.ltb_spec 1 (List.length candles)) as [H|H].
  - destruct (Z.gtb_spec (Z.of_nat (List.length candles)) 1); [|lia].
    replace (Z.of_nat (List.length candles) - 2)
      with (Z.of_nat (List.length candles - 2)) by lia.
    now rewrite at_index_nat, addIndicators_nth.
  - destruct (Z.gtb_spec (Z.of_nat (List.length candles)) 1); [lia|].
    reflexivity.
Qed.

Lemma five_day_reference (candles : list Candle) :
  match at_index candles (len candles - 6) with
  | Some c => Some c
  | None => at_index candles 0
  end = reference_candle candles.
Proof.
  unfold reference_candle, len.
  destruct (Nat.leb_spec 6 (List.length candles)) as [H|H].
  - replace (Z.of_nat (List.length candles) - 6)
      with (Z.of_nat (List.length candles - 6)) by lia.
    rewrite at_index_nat.
    destruct (nth_error candles (List.length candles - 6)) eqn:E;
      [reflexivity|].
    apply nth_error_None in E. lia.
  - unfold at_index at 1.
    destruct (Z.ltb_spec (Z.of_nat (List.length candles) - 6) 0); [|lia].
    exact (at_index_nat candles 0).
Qed.

(** On a non-empty sequence, each field of the record as a function of the
    last point, the previous candle, the reference candle and the trailing
    window. *)
Lemma analyzeNifty_parts (candles : list Candle) :
  candles <> [] ->
  exists r lp,
    analyzeNifty candles = Ok r
    /\ last_point (addIndicators candles) = Some lp
    /\ lastClose r = round2 (Fin (close lp))
    /\ previousClose r
       = option_map (fun c => round2 (Fin (close c)))
           (previous_candle candles)
    /\ dailyChangePct r
       = match previous_candle candles with
         | Some p =>
             if truthy (Fin (close p))
             then Some (pct_change (close lp) (close p))
             else None
         | None => None
         end
    /\ momentumPct5Day r
       = option_map (fun c => pct_change (close lp) (close c))
           (reference_candle candles)
    /\ res_rsi14 r = rsi14 lp
    /\ bias r = compute_bias (lastClose r) (sma20 lp) (sma50 lp)
    /\ confidence r
       = compute_confidence (lastClose r) (rsi14 lp) (sma20 lp) (sma50 lp)
    /\ (nextMoveHeadline r, narrative r)
       = compute_story (bias r) (rsi14 lp) (sma20 lp) (momentumPct5Day r)
           (supportZone r) (resistanceZone r)
    /\ supportZone r
       = Some (round2 (min_list (map (fun candle => Fin (low candle))
                                   (trailing_window candles))))
    /\ resistanceZone r
       = Some (round2 (max_list (map (fun candle => Fin (high candle))
                                   (trailing_window candles)))).
Proof.
  intros Hne.
  destruct (last_point_addIndicators candles Hne) as (lp & c & Elp & _ & _).
  unfold analyzeNifty.
  assert (Hlen : (0 < List.length candles)%nat)
    by (destruct candles; [contradiction | simpl; lia]).
  destruct (Z.eqb_spec (len candles) 0) as [E0|_]; [unfold len in E0; lia|].
  rewrite previous_point_candle, five_day_reference.
  replace (len (addIndicators candles) - 1)
    with (Z.of_nat (List.length (addIndicators candles) - 1))
    by (unfold len; rewrite addIndicators_length; lia).
  rewrite at_index_nat. unfold last_point in Elp. rewrite Elp.
  rewrite recent_window_eq.
  assert (Hw : (len (trailing_window candles) >? 0) = true).
  { unfold len. rewrite trailing_window_length. apply Z.gtb_lt. lia. }
  rewrite Hw.
  destruct (previous_candle candles) as [prev|];
    destruct (reference_candle candles) as [ref|]; cbn [option_map];
    match goal with
    | |- context [compute_story ?b ?a1 ?a2 ?a3 ?a4 ?a5] =>
        destruct (compute_story b a1 a2 a3 a4 a5) as [headline story] eqn:Es
    end;
    (eexists _, lp; split; [reflexivity|]; split; [exact Elp|]; cbn;
     repeat split; symmetry; exact Es).
Qed.

Lemma last_candle_of_point (candles : list Candle) (lp : IndicatorPoint) :
  last_point (addIndicators candles) = Some lp ->
  nth_error candles (List.length candles - 1) = Some (candle lp).
Proof.
  unfold last_point. rewrite addIndicators_length, addIndicators_nth.
  destruct (nth_error candles (List.length candles - 1)); [|discriminate].
  intros E. injection E as <-. reflexivity.
Qed.

(** ** Short histories *)

Lemma last_point_fields (candles : list Candle) (lp : IndicatorPoint) :
  last_point (addIndicators candles) = Some lp ->
  candles <> []
  /\ lp = point_at (closes_of candles) (List.length candles - 1) (candle lp).
Proof.
  intros E. unfold last_point in E.
  rewrite addIndicators_length, addIndicators_nth in E.
  destruct (nth_error candles (List.length candles - 1)) eqn:Ec;
    [|discriminate].
  injection E as <-. split; [|reflexivity].
  intros ->. discriminate Ec.
Qed.

(** X5: with fewer than 50 candles there is no 50-day average, so the
    analysis is always neutral: neutral bias, medium confidence, the
    sideways headline and its narrative. *)
Theorem short_history_is_neutral (candles : list Candle) :
  candles <> [] ->
  (List.length candles < 50)%nat ->
  exists r,
    analyzeNifty candles = Ok r
    /\ bias r = neutral
    /\ confidence r = conf_medium
    /\ nextMoveHeadline r = "Sideways consolidation likely"%string
    /\ narrative r = neutral_narrative.
Proof.
  intros Hne Hlen.
  destruct (analyzeNifty_parts candles Hne)
    as (r & lp & Er & Elp & _ & _ & _ & _ & _ & Eb & Ec & Es & _).
  destruct (last_point_fields candles lp Elp) as (_ & Hlp).
  assert (H50 : sma50 lp = None).
  { rewrite Hlp. cbn [sma50 point_at]. unfold computeSMA.
    destruct (Z.ltb_spec (Z.of_nat (List.length candles - 1) + 1) 50);
      [reflexivity | lia]. }
  assert (Hb : bias r = neutral).
  { rewrite Eb, H50. unfold compute_bias. now destruct (sma20 lp). }
  exists r. split; [exact Er|]. split; [exact Hb|].
  rewrite Hb in Es. cbn [compute_story] in Es.
  injection Es as Eh En. rewrite Eh, En, Ec, H50.
  repeat split. unfold compute_confidence.
  destruct (rsi14 lp); [destruct (sma20 lp)|]; reflexivity.
Qed.

Lemma short_history_is_neutral_witness :
  exists r,
    analyzeNifty zigzag = Ok r
    /\ bias r = neutral
    /\ confidence r = conf_medium
    /\ nextMoveHeadline r = "Sideways consolidation likely"%string
    /\ narrative r = neutral_narrative.
Proof.
  apply (short_history_is_neutral zigzag); [discriminate | cbn; lia].
Defined.

(** X6: the [rsi14] of the analysis is absent with fewer than 15 candles
    and present from 15 candles on. *)
Theorem analysis_rsi_needs_fifteen_candles (candles : list Candle) :
  candles <> [] ->
  exists r,
    analyzeNifty candles = Ok r
    /\ ((List.length candles < 15)%nat -> res_rsi14 r = None)
    /\ ((15 <= List.length candles)%nat ->
          exists v, res_rsi14 r = Some v).
Proof.
  intros Hne.
  destruct (analyzeNifty_parts candles Hne)
    as (r & lp & Er & Elp & _ & _ & _ & _ & Ersi & _).
  destruct (last_point_fields candles lp Elp) as (_ & Hlp).
  assert (Hlen : (0 < List.length candles)%nat)
    by (destruct candles; [contradiction | simpl; lia]).
  exists r. split; [exact Er|]. rewrite Ersi, Hlp.
  rewrite rsi14_point by lia.
  split; intros H.
  - destruct (Nat.ltb_spec (List.length candles - 1) 14); [reflexivity | lia].
  - destruct (Nat.ltb_spec (List.length candles - 1) 14); [lia|].
    now eexists.
Qed.

Lemma analysis_rsi_needs_fifteen_candles_witness :
  exists r,
    analyzeNifty zigzag = Ok r
    /\ exists v, res_rsi14 r = Some v.
Proof.
  assert (Hne : zigzag <> []) by discriminate.
  destruct (analysis_rsi_needs_fifteen_candles zigzag Hne) as (r & Er & _ & H).
  exists r. split; [exact Er|]. apply H. cbn. lia.
Defined.

(** ** The last close between support and resistance *)




(** ** Only the last 50 candles matter *)

Lemma last_point_recent (older recent : list Candle) (c : Candle) :
  (50 <= List.length recent)%nat ->
  point_at (closes_of (older ++ recent))
    (List.length older + (List.length recent - 1)) c
  = point_at (closes_of recent) (List.length recent - 1) c.
Proof.
  intros enough.
  rewrite !point_at_exact by (rewrite ?length_app; lia).
  cbv zeta. unfold average_gain, average_loss.
  destruct (Nat.ltb_spec (List.length older + (List.length recent - 1)) 14);
    [lia|].
  destruct (Nat.ltb_spec (List.length recent - 1) 14); [lia|].
  repeat match goal with
    | |- context [?p <=? Z.of_nat ?i + 1] =>
        destruct (Z.leb_spec p (Z.of_nat i + 1)); [|lia]
    end.
  rewrite !(trailing_mean_shift (close_at (older ++ recent))
              (close_at recent) (List.length older) (List.length recent - 1))
    by (lia || (intros; apply close_at_app_r)).
  rewrite (trailing_mean_shift (gain_at (older ++ recent))
             (gain_at recent) (List.length older) (List.length recent - 1))
    by (lia || (intros; apply gain_at_app_r; lia)).
  rewrite (trailing_mean_shift (loss_at (older ++ recent))
             (loss_at recent) (List.length older) (List.length recent - 1))
    by (lia || (intros; apply loss_at_app_r; lia)).
  reflexivity.
Qed.

Lemma nth_error_recent (older recent : list Candle) (j : nat) :
  (j <= List.length recent)%nat ->
  nth_error (older ++ recent) (List.length (older ++ recent) - j)
  = nth_error recent (List.length recent - j).
Proof.
  intros Hj. rewrite length_app, nth_error_app2 by lia.
  f_equal. lia.
Qed.

Lemma previous_candle_recent (older recent : list Candle) :
  (2 <= List.length recent)%nat ->
  previous_candle (older ++ recent) = previous_candle recent.
Proof.
  intros enough. unfold previous_candle.
  destruct (Nat.ltb_spec 1 (List.length (older ++ recent)));
    [|rewrite length_app in *; lia].
  destruct (Nat.ltb_spec 1 (List.length recent)); [|lia].
  apply nth_error_recent. lia.
Qed.

Lemma reference_candle_recent (older recent : list Candle) :
  (6 <= List.length recent)%nat ->
  reference_candle (older ++ recent) = reference_candle recent.
Proof.
  intros enough. unfold reference_candle.
  destruct (Nat.leb_spec 6 (List.length (older ++ recent)));
    [|rewrite length_app in *; lia].
  destruct (Nat.leb_spec 6 (List.length recent)); [|lia].
  apply nth_error_recent. lia.
Qed.

Lemma trailing_window_recent (older recent : list Candle) :
  (15 <= List.length recent)%nat ->
  trailing_window (older ++ recent) = trailing_window recent.
Proof.
  intros enough. unfold trailing_window. rewrite length_app, skipn_app.
  rewrite skipn_all2 by lia. cbn [app]. f_equal. lia.
Qed.

Lemma record_eq (r1 r2 : NiftyAnalysis) :
  lastClose r1 = lastClose r2 ->
  previousClose r1 = previousClose r2 ->
  dailyChangePct r1 = dailyChangePct r2 ->
  bias r1 = bias r2 ->
  momentumPct5Day r1 = momentumPct5Day r2 ->
  res_rsi14 r1 = res_rsi14 r2 ->
  supportZone r1 = supportZone r2 ->
  resistanceZone r1 = resistanceZone r2 ->
  (nextMoveHeadline r1, narrative r1) = (nextMoveHeadline r2, narrative r2) ->
  confidence r1 = confidence r2 ->
  r1 = r2.
Proof.
  destruct r1, r2. cbn. intros. subst.
  match goal with H : (_, _) = (_, _) |- _ => injection H as -> -> end.
  reflexivity.
Qed.

(** X8: the analysis depends on the last 50 candles only: dropping any
    older history leaves every field of the record unchanged. *)
Theorem analysis_reads_last_fifty (older recent : list Candle) :
  (50 <= List.length recent)%nat ->
  analyzeNifty (older ++ recent) = analyzeNifty recent.
Proof.
  intros Hlen.
  assert (Hne2 : recent <> []) by (intros ->; simpl in Hlen; lia).
  assert (Hne1 : older ++ recent <> []).
  { intros E. apply app_eq_nil in E. now destruct E. }
  destruct (analyzeNifty_parts _ Hne1)
    as (r1 & lp1 & Er1 & Elp1 & Ec1 & Ep1 & Ed1 & Em1 & Ersi1 & Eb1 & Ecf1
        & Es1 & Esz1 & Erz1).
  destruct (analyzeNifty_parts _ Hne2)
    as (r2 & lp2 & Er2 & Elp2 & Ec2 & Ep2 & Ed2 & Em2 & Ersi2 & Eb2 & Ecf2
        & Es2 & Esz2 & Erz2).
  assert (Hlp : lp1 = lp2).
  { destruct (last_point_fields _ _ Elp1) as (_ & H1).
    destruct (last_point_fields _ _ Elp2) as (_ & H2).
    pose proof (last_candle_of_point _ _ Elp1) as C1.
    pose proof (last_candle_of_point _ _ Elp2) as C2.
    rewrite (nth_error_recent older recent 1%nat) in C1 by lia.
    rewrite C2 in C1. injection C1 as C1.
    rewrite H1, H2, <- C1.
    replace (List.length (older ++ recent) - 1)%nat
      with (List.length older + (List.length recent - 1))%nat
      by (rewrite length_app; lia).
    apply last_point_recent. exact Hlen. }
  subst lp2.
  rewrite (previous_candle_recent older recent) in Ep1, Ed1 by lia.
  rewrite (reference_candle_recent older recent) in Em1 by lia.
  rewrite (trailing_window_recent older recent) in Esz1, Erz1 by lia.
  rewrite Er1, Er2. f_equal.
  assert (Hc : lastClose r1 = lastClose r2) by congruence.
  assert (Hb : bias r1 = bias r2) by congruence.
  assert (Hm : momentumPct5Day r1 = momentumPct5Day r2) by congruence.
  assert (Hs : supportZone r1 = supportZone r2) by congruence.
  assert (Ht : resistanceZone r1 = resistanceZone r2) by congruence.
  apply record_eq; try congruence.
Qed.

Lemma analysis_reads_last_fifty_witness :
  analyzeNifty (zigzag ++ rising_sixty) = analyzeNifty rising_sixty.
Proof.
  apply (analysis_reads_last_fifty zigzag rising_sixty). cbn. lia.
Defined.

(** ** RSI on rising runs *)

Section SumFacts.
Local Open Scope Q_scope.



End SumFacts.



(** ** [normalizeCandles] *)

Section RouteFacts.
Variable toISOString : Z -> string.
Variable raw : Yahoo.Response.

Let closes := prices_of Yahoo.close raw.
Let opens := prices_of Yahoo.open raw.
Let highs := prices_of Yahoo.high raw.
Let lows := prices_of Yahoo.low raw.
Let volumes := prices_of Yahoo.volume raw.

Lemma complete_row_iff (ts : Q) (idx : nat) :
  complete_row raw idx <-> row_at toISOString raw ts idx <> None.
Proof.
  unfold complete_row, row_at.
  destruct (price_at (prices_of Yahoo.close raw) idx);
    destruct (price_at (prices_of Yahoo.open raw) idx);
    destruct (price_at (prices_of Yahoo.high raw) idx);
    destruct (price_at (prices_of Yahoo.low raw) idx);
    split; try discriminate; try tauto;
    intros; repeat split; discriminate.
Qed.

Lemma iso_date_valid (ts : Q) :
  valid_timestamp ts ->
  iso_date toISOString ts = Ok (toISOString (Qtruncate (ts * 1000))).
Proof.
  intros H. unfold iso_date. apply Qle_bool_iff in H. now rewrite H.
Qed.

Lemma iso_date_invalid (ts : Q) :
  ~ valid_timestamp ts ->
  iso_date toISOString ts = Throw invalid_time_message.
Proof.
  intros H. unfold iso_date.
  destruct (Qle_bool (Qabs (ts * 1000)) max_time_value) eqn:E;
    [|reflexivity].
  apply Qle_bool_iff in E. contradiction.
Qed.

(** One call of the callback, by the row. *)
Lemma push_row_cases (candles : list Candle) (ts : Q) (idx : nat) :
  match row_at toISOString raw ts idx with
  | None =>
      push_row toISOString closes opens highs lows volumes candles ts idx
      = Ok candles
  | Some c =>
      (valid_timestamp ts ->
         push_row toISOString closes opens highs lows volumes candles ts idx
         = Ok (candles ++ [c]))
      /\ (~ valid_timestamp ts ->
            push_row toISOString closes opens highs lows volumes candles ts
              idx
            = Throw invalid_time_message)
  end.
Proof.
  unfold row_at, push_row, price_at, closes, opens, highs, lows, volumes.
  destruct (nth_error (prices_of Yahoo.close raw) idx) as [[c|]|];
    try reflexivity;
    destruct (nth_error (prices_of Yahoo.open raw) idx) as [[o|]|];
    try reflexivity;
    destruct (nth_error (prices_of Yahoo.high raw) idx) as [[h|]|];
    try reflexivity;
    destruct (nth_error (prices_of Yahoo.low raw) idx) as [[l|]|];
    try reflexivity.
  split; intros Hv.
  - rewrite (iso_date_valid ts Hv).
    now destruct (nth_error (prices_of Yahoo.volume raw) idx) as [[v|]|].
  - now rewrite (iso_date_invalid ts Hv).
Qed.

(** The loop either pushes the candles of the complete rows, in order, or
    stops at a complete row whose timestamp is not valid. *)
Lemma forEach_from_rows (timestamps : list Q) : forall idx candles,
  (forEach_from toISOString closes opens highs lows volumes timestamps idx
     candles
   = Ok (candles ++ rows_from toISOString raw timestamps idx)
   /\ forall j ts, nth_error timestamps j = Some ts ->
        complete_row raw (idx + j) -> valid_timestamp ts)
  \/ (forEach_from toISOString closes opens highs lows volumes timestamps idx
        candles
      = Throw invalid_time_message
      /\ exists j ts, nth_error timestamps j = Some ts
                      /\ complete_row raw (idx + j)
                      /\ ~ valid_timestamp ts).
Proof.
  induction timestamps as [|ts rest IH]; intros idx candles.
  - left. split; [cbn; now rewrite app_nil_r|].
    intros j ts E. destruct j; discriminate E.
  - cbn [forEach_from rows_from].
    pose proof (push_row_cases candles ts idx) as Hrow.
    pose proof (complete_row_iff ts idx) as Hc.
    destruct (row_at toISOString raw ts idx) as [c|].
    + destruct Hrow as [Hok Hbad].
      destruct (Qlt_le_dec max_time_value (Qabs (ts * 1000))) as [Hinv|Hval].
      * right. rewrite Hbad by (unfold valid_timestamp; lra).
        split; [reflexivity|]. exists 0%nat, ts.
        rewrite Nat.add_0_r. split; [reflexivity|].
        split; [apply Hc; discriminate|]. unfold valid_timestamp. lra.
      * rewrite (Hok Hval).
        destruct (IH (S idx) (candles ++ [c])) as [[E Hall]|[E Hex]].
        -- left. rewrite E, <- app_assoc. split; [reflexivity|].
           intros [|j] ts' Ej Hj.
           ++ injection Ej as <-. exact Hval.
           ++ apply (Hall j ts' Ej).
              now replace (S idx + j)%nat with (idx + S j)%nat by lia.
        -- right. split; [exact E|].
           destruct Hex as (j & ts' & Ej & Hj & Hn).
           exists (S j), ts'. split; [exact Ej|]. split; [|exact Hn].
           now replace (idx + S j)%nat with (S idx + j)%nat by lia.
    + rewrite Hrow.
      destruct (IH (S idx) candles) as [[E Hall]|[E Hex]].
      * left. split; [exact E|].
        intros [|j] ts' Ej Hj.
        -- exfalso. rewrite Nat.add_0_r in Hj. apply Hc in Hj. now apply Hj.
        -- apply (Hall j ts' Ej).
           now replace (S idx + j)%nat with (idx + S j)%nat by lia.
      * right. split; [exact E|].
        destruct Hex as (j & ts' & Ej & Hj & Hn).
        exists (S j), ts'. split; [exact Ej|]. split; [|exact Hn].
        now replace (idx + S j)%nat with (S idx + j)%nat by lia.
Qed.
End RouteFacts.

Section RowFacts.
Variable toISOString : Z -> string.
Variable raw : Yahoo.Response.

Lemma price_at_length (prices : list (option Q)) (idx : nat) :
  price_at prices idx <> None -> (idx < List.length prices)%nat.
Proof.
  unfold price_at. intros H. apply nth_error_Some.
  destruct (nth_error prices idx); [discriminate | contradiction].
Qed.

Lemma rows_from_length (field : Yahoo.Quote -> option (list (option Q)))
    (timestamps : list Q) :
  (forall idx, complete_row raw idx ->
     price_at (prices_of field raw) idx <> None) ->
  forall idx,
    (List.length (rows_from toISOString raw timestamps idx)
     <= Nat.min (List.length timestamps)
          (List.length (prices_of field raw) - idx))%nat.
Proof.
  intros Hfield. induction timestamps as [|ts rest IH]; intros idx.
  - cbn. lia.
  - cbn [rows_from List.length]. specialize (IH (S idx)).
    pose proof (complete_row_iff toISOString raw ts idx) as Hc.
    destruct (row_at toISOString raw ts idx) as [c|].
    + assert (Hidx : (idx < List.length (prices_of field raw))%nat).
      { apply price_at_length, Hfield, Hc. discriminate. }
      cbn [List.length]. lia.
    + lia.
Qed.

(** The candles pushed are those of the complete rows, by increasing
    position. *)
Lemma rows_from_positions (timestamps : list Q) : forall idx,
  exists positions,
    StronglySorted Nat.lt positions
    /\ (forall i, In i positions <->
                  (idx <= i < idx + List.length timestamps)%nat
                  /\ complete_row raw i)
    /\ Forall2 (fun i c =>
                  exists ts, nth_error timestamps (i - idx) = Some ts
                             /\ row_at toISOString raw ts i = Some c)
         positions (rows_from toISOString raw timestamps idx).
Proof.
  induction timestamps as [|ts rest IH]; intros idx.
  - exists []. split; [constructor|]. split; [|constructor].
    intros i. split; [contradiction|]. cbn. lia.
  - destruct (IH (S idx)) as (ps & Hsorted & Hin & Hall).
    assert (Hshift : Forall2
              (fun i c =>
                 exists ts', nth_error (ts :: rest) (i - idx) = Some ts'
                             /\ row_at toISOString raw ts' i = Some c)
              ps (rows_from toISOString raw rest (S idx))).
    { assert (Hge : Forall (fun i => (S idx <= i)%nat) ps).
      { apply Forall_forall. intros i Hi. apply Hin in Hi. lia. }
      clear Hin Hsorted.
      induction Hall as [|i c ps' cs' (ts' & E & R) _ IHall];
        [constructor|].
      inversion Hge as [|? ? Hi Hrest]; subst.
      constructor; [|now apply IHall].
      exists ts'. split; [|exact R].
      replace (i - idx)%nat with (S (i - S idx)) by lia. exact E. }
    cbn [rows_from].
    pose proof (complete_row_iff toISOString raw ts idx) as Hc.
    destruct (row_at toISOString raw ts idx) as [c|] eqn:Erow.
    + exists (idx :: ps). split; [|split].
      * constructor; [exact Hsorted|].
        apply Forall_forall. intros i Hi. apply Hin in Hi. lia.
      * intros i. cbn [In List.length]. rewrite Hin. split.
        -- intros [<- | [Hr Hcr]].
           ++ split; [lia|]. apply Hc. discriminate.
           ++ split; [lia | exact Hcr].
        -- intros [Hr Hcr].
           destruct (Nat.eq_dec idx i) as [->|Hne]; [now left|].
           right. split; [lia | exact Hcr].
      * constructor; [|exact Hshift].
        exists ts. rewrite Nat.sub_diag. now split.
    + exists ps. split; [exact Hsorted|]. split; [|exact Hshift].
      intros i. cbn [List.length]. rewrite Hin. split.
      * intros [Hr Hcr]. split; [lia | exact Hcr].
      * intros [Hr Hcr]. split; [|exact Hcr].
        destruct (Nat.eq_dec idx i) as [->|Hne]; [|lia].
        exfalso. apply Hc in Hcr. now apply Hcr.
Qed.

Lemma row_at_candle (ts : Q) (idx : nat) (c : Candle) :
  nth_error (timestamps_of raw) idx = Some ts ->
  row_at toISOString raw ts idx = Some c ->
  candle_of_row toISOString raw idx c.
Proof.
  intros Ets E. unfold row_at in E. exists ts.
  destruct (price_at (prices_of Yahoo.close raw) idx);
    destruct (price_at (prices_of Yahoo.open raw) idx);
    destruct (price_at (prices_of Yahoo.high raw) idx);
    destruct (price_at (prices_of Yahoo.low raw) idx); try discriminate.
  injection E as <-. cbn. repeat split. exact Ets.
Qed.
End RowFacts.

(** X11: when the timestamp of every complete row is within the range of
    a date, [normalizeCandles] returns exactly one candle per complete row
    (a row whose open, high, low and close are all numbers), in the order
    of the rows in the response, which the code never sorts, each with the
    prices and volume of its row and the ISO date of its timestamp; rows
    with a missing or [null] price are dropped. *)
Theorem normalizeCandles_keeps_complete_rows (toISOString : Z -> string)
    (raw : Yahoo.Response) :
  (forall idx ts,
     nth_error (timestamps_of raw) idx = Some ts ->
     complete_row raw idx -> valid_timestamp ts) ->
  exists candles positions,
    normalizeCandles toISOString raw = Ok candles
    /\ StronglySorted Nat.lt positions
    /\ (forall idx, In idx positions <->
                    (idx < List.length (timestamps_of raw))%nat
                    /\ complete_row raw idx)
    /\ Forall2 (candle_of_row toISOString raw) positions candles.
Proof.
  intros Hvalid. unfold normalizeCandles.
  destruct (forEach_from_rows toISOString raw (timestamps_of raw) 0 [])
    as [[E _]|[_ (j & ts & Ej & Hj & Hn)]].
  - destruct (rows_from_positions toISOString raw (timestamps_of raw) 0)
      as (ps & Hsorted & Hin & Hall).
    exists (rows_from toISOString raw (timestamps_of raw) 0), ps.
    split; [exact E|]. split; [exact Hsorted|]. split.
    + intros idx. rewrite Hin. cbn. split; intros [H1 H2]; (split; [lia|]);
        exact H2.
    + eapply Forall2_impl; [|exact Hall].
      intros i c (ts & Ets & Erow). rewrite Nat.sub_0_r in Ets.
      now apply (row_at_candle toISOString raw ts).
  - exfalso. apply Hn. now apply (Hvalid (0 + j)%nat ts).
Qed.

Lemma normalizeCandles_keeps_complete_rows_witness :
  exists candles positions,
    normalizeCandles (fun _ => EmptyString) sample_response = Ok candles
    /\ StronglySorted Nat.lt positions
    /\ (forall idx, In idx positions <->
                    (idx < List.length (timestamps_of sample_response))%nat
                    /\ complete_row sample_response idx)
    /\ Forall2 (candle_of_row (fun _ => EmptyString) sample_response)
         positions candles.
Proof.
  apply normalizeCandles_keeps_complete_rows.
  intros idx ts E _. unfold valid_timestamp.
  do 3 (destruct idx as [|idx];
        [injection E as <-; vm_compute; discriminate|]).
  destruct idx; discriminate E.
Defined.

(** X12: [normalizeCandles] throws exactly when a complete row has a
    timestamp beyond the range of a date, and then with the "invalid time"
    error; a bad timestamp on a dropped row is harmless. *)
Theorem normalizeCandles_throws_on_invalid_time (toISOString : Z -> string)
    (raw : Yahoo.Response) :
  ((exists message, normalizeCandles toISOString raw = Throw message)
   <-> exists idx ts,
         nth_error (timestamps_of raw) idx = Some ts
         /\ complete_row raw idx /\ ~ valid_timestamp ts)
  /\ (forall message,
        normalizeCandles toISOString raw = Throw message ->
        message = invalid_time_message).
Proof.
  unfold normalizeCandles.
  destruct (forEach_from_rows toISOString raw (timestamps_of raw) 0 [])
    as [[E Hall]|[E Hex]]; rewrite E.
  - split; [split|].
    + intros (message & H). discriminate H.
    + intros (idx & ts & Ets & Hc & Hn). exfalso. apply Hn.
      now apply (Hall idx ts).
    + intros message H. discriminate H.
  - split; [split|].
    + intros _. exact Hex.
    + intros _. now eexists.
    + intros message H. now injection H as <-.
Qed.

(** X13: [normalizeCandles] never returns more candles than there are
    timestamps, or than there are entries in the array of opens, highs,
    lows or closes; so it returns no candle when the response has no
    result, no timestamps, no quote, or lacks one of these four arrays. *)
Theorem normalizeCandles_is_bounded (toISOString : Z -> string)
    (raw : Yahoo.Response) (candles : list Candle) :
  normalizeCandles toISOString raw = Ok candles ->
  (List.length candles <= List.length (timestamps_of raw))%nat
  /\ (forall field,
        field = Yahoo.open \/ field = Yahoo.high \/ field = Yahoo.low
        \/ field = Yahoo.close ->
        (List.length candles <= List.length (prices_of field raw))%nat)
  /\ (first_result raw = None -> candles = [])
  /\ (first_quote raw = None -> candles = [])
  /\ (forall quote field,
        first_quote raw = Some quote ->
        field = Yahoo.open \/ field = Yahoo.high \/ field = Yahoo.low
        \/ field = Yahoo.close ->
        field quote = None -> candles = []).
Proof.
  intros E. unfold normalizeCandles in E.
  destruct (forEach_from_rows toISOString raw (timestamps_of raw) 0 [])
    as [[E' _]|[E' _]]; rewrite E' in E; [|discriminate E].
  injection E as <-. cbn [app].
  assert (Hfield : forall field,
            field = Yahoo.open \/ field = Yahoo.high \/ field = Yahoo.low
            \/ field = Yahoo.close ->
            (List.length (rows_from toISOString raw (timestamps_of raw) 0)
             <= List.length (prices_of field raw))%nat).
  { intros field Hf.
    pose proof (rows_from_length toISOString raw field (timestamps_of raw))
      as Hlen.
    assert (Hc : forall idx, complete_row raw idx ->
                   price_at (prices_of field raw) idx <> None).
    { intros idx (Hclose & Hopen & Hhigh & Hlow).
      destruct Hf as [-> | [-> | [-> | ->]]]; assumption. }
    specialize (Hlen Hc 0%nat). lia. }
  assert (Hempty : forall field,
            field = Yahoo.open \/ field = Yahoo.high \/ field = Yahoo.low
            \/ field = Yahoo.close ->
            prices_of field raw = [] ->
            rows_from toISOString raw (timestamps_of raw) 0 = []).
  { intros field Hf Hnil. specialize (Hfield field Hf).
    rewrite Hnil in Hfield.
    destruct (rows_from toISOString raw (timestamps_of raw) 0);
      [reflexivity | cbn in Hfield; lia]. }
  split; [|split; [exact Hfield|split; [|split]]].
  - pose proof (rows_from_length toISOString raw Yahoo.close
                  (timestamps_of raw)) as Hlen.
    assert (Hc : forall idx, complete_row raw idx ->
                   price_at (prices_of Yahoo.close raw) idx <> None)
      by (intros idx Hc; apply Hc).
    specialize (Hlen Hc 0%nat). lia.
  - intros Hnone. apply (Hempty Yahoo.close); [tauto|].
    unfold prices_of, first_quote. now rewrite Hnone.
  - intros Hnone. apply (Hempty Yahoo.close); [tauto|].
    unfold prices_of. now rewrite Hnone.
  - intros quote field Hq Hf Hnone. apply (Hempty field Hf).
    unfold prices_of. rewrite Hq. cbn. now rewrite Hnone.
Qed.

Lemma normalizeCandles_is_bounded_witness :
  exists candles,
    normalizeCandles (fun _ => EmptyString) sample_response = Ok candles
    /\ (List.length candles
        <= List.length (timestamps_of sample_response))%nat
    /\ (List.length candles
        <= List.length (prices_of Yahoo.low sample_response))%nat.
Proof.
  eexists. split; [vm_compute; reflexivity|].
  destruct (normalizeCandles_is_bounded (fun _ => EmptyString)
              sample_response _ eq_refl) as (H1 & H2 & _).
  split; [exact H1|]. apply H2. tauto.
Defined.

(** ** [GET] *)

Lemma Forall2_Forall_right {A B} (R : A -> B -> Prop) (P : B -> Prop)
    (xs : list A) (ys : list B) :
  Forall2 R xs ys ->
  (forall x y, In x xs -> R x y -> P y) ->
  Forall P ys.
Proof.
  intros H. induction H as [|x y xs ys Hxy _ IH]; intros HP;
    constructor.
  - apply (HP x y); [now left | exact Hxy].
  - apply IH. intros x' y' Hin. apply HP. now right.
Qed.

Lemma normalizeCandles_ok_rows (toISOString : Z -> string)
    (raw : Yahoo.Response) (candles : list Candle) :
  normalizeCandles toISOString raw = Ok candles ->
  Forall (fun c => exists idx,
                     complete_row raw idx
                     /\ candle_of_row toISOString raw idx c) candles.
Proof.
  intros E. unfold normalizeCandles in E.
  destruct (forEach_from_rows toISOString raw (timestamps_of raw) 0 [])
    as [[E' _]|[E' _]]; rewrite E' in E; [|discriminate E].
  injection E as <-. cbn [app].
  destruct (rows_from_positions toISOString raw (timestamps_of raw) 0)
    as (ps & _ & Hin & Hall).
  apply (Forall2_Forall_right _ _ _ _ Hall).
  intros i c Hi (ts & Ets & Erow). exists i. split; [now apply Hin|].
  rewrite Nat.sub_0_r in Ets. now apply (row_at_candle toISOString raw ts).
Qed.

(** X14: [GET] replies with status 200 only when the provider answered ok
    with a body from which [normalizeCandles] gets at least one candle; the
    reply then carries these candles, each a complete row of the body, the
    meta of its first result, the source name and the time of the call. In
    every other case (the fetch failed, the answer was not ok, the body was
    unreadable, a timestamp was invalid, no row was complete) it replies
    with status 502 and one fixed message. *)
Theorem GET_replies_data_or_bad_gateway (toISOString : Z -> string)
    (upstream : Upstream) (now : string) :
  let sendable raw candles :=
    upstream = upstream_answered true (Some raw)
    /\ normalizeCandles toISOString raw = Ok candles
    /\ candles <> [] in
  (exists raw candles,
      sendable raw candles
      /\ GET toISOString upstream now
         = mkApiReply 200
             (api_data candles (chain (first_result raw) Yahoo.meta)
                "Yahoo Finance" now)
      /\ Forall (fun c => exists idx,
                            complete_row raw idx
                            /\ candle_of_row toISOString raw idx c) candles)
  \/ ((forall raw candles, ~ sendable raw candles)
      /\ GET toISOString upstream now
         = mkApiReply 502
             (api_error "Unable to retrieve Nifty data at this time")).
Proof.
  cbv zeta.
  destruct upstream as [|ok [raw|]]; cbn [GET].
  - right. split; [|reflexivity]. intros raw cs (H & _). discriminate H.
  - destruct ok; cbn [negb].
    + destruct (normalizeCandles toISOString raw) as [cs|m] eqn:E.
      * destruct cs as [|c cs].
        -- right. split; [|reflexivity].
           intros raw' cs' (H & E' & Hne). injection H as <-.
           rewrite E in E'. injection E' as <-. now apply Hne.
        -- left. exists raw, (c :: cs). split; [|split].
           ++ split; [reflexivity|]. split; [exact E | discriminate].
           ++ reflexivity.
           ++ now apply normalizeCandles_ok_rows.
      * right. split; [|reflexivity].
        intros raw' cs' (H & E' & _). injection H as <-.
        rewrite E in E'. discriminate E'.
    + right. split; [|reflexivity]. intros raw' cs (H & _). discriminate H.
  - right. split; [|now destruct ok].
    intros raw cs (H & _). discriminate H.
Qed.

(** ** The dashboard *)

Lemma map_candle_addIndicators (candles : list Candle) :
  map candle (addIndicators candles) = candles.
Proof.
  apply nth_error_ext. intros i.
  rewrite nth_error_map, addIndicators_nth.
  destruct (nth_error candles i); reflexivity.
Qed.

Section ComponentFacts.
Variable formatDateLabel : string -> result string.

Lemma label_points_ok (enriched : list IndicatorPoint) :
  (forall p, In p enriched -> exists l, formatDateLabel (date p) = Ok l) ->
  exists data,
    label_points formatDateLabel enriched = Ok data
    /\ map point data = enriched
    /\ Forall (fun cp : ChartPoint =>
             formatDateLabel (date cp) = Ok (label cp)) data.
Proof.
  induction enriched as [|p rest IH]; intros H.
  - exists []. repeat split. constructor.
  - destruct (H p (or_introl eq_refl)) as (l & El).
    destruct IH as (data & Ed & Hmap & Hall);
      [intros q Hq; apply H; now right|].
    exists (mkChartPoint p l :: data). cbn [label_points].
    rewrite El, Ed. split; [reflexivity|]. split.
    + cbn. now rewrite Hmap.
    + constructor; [exact El | exact Hall].
Qed.

Lemma chartData_ok (candles : list Candle) :
  (forall c, In c candles -> exists l, formatDateLabel (date c) = Ok l) ->
  exists data,
    chartData formatDateLabel (Some candles) = Ok data
    /\ map point data = addIndicators candles
    /\ Forall (fun cp : ChartPoint =>
             formatDateLabel (date cp) = Ok (label cp)) data.
Proof.
  intros H. unfold chartData.
  destruct (Z.eqb_spec (len candles) 0) as [E|_].
  - assert (candles = []) as ->.
    { destruct candles; [reflexivity | unfold len in E; cbn in E; lia]. }
    exists []. repeat split. constructor.
  - apply label_points_ok. intros p Hp. apply H.
    rewrite <- (map_candle_addIndicators candles). now apply in_map.
Qed.
End ComponentFacts.

(** X15: when every candle's date can be labelled, [chartData] has one
    point per candle, in order: the points of [addIndicators], each with
    the label of its date; so it is empty only for an empty sequence. *)
Theorem chartData_follows_candles (formatDateLabel : string -> result string)
    (candles : list Candle) :
  (forall c, In c candles -> exists l, formatDateLabel (date c) = Ok l) ->
  exists data,
    chartData formatDateLabel (Some candles) = Ok data
    /\ map point data = addIndicators candles
    /\ List.length data = List.length candles
    /\ Forall (fun cp : ChartPoint =>
             formatDateLabel (date cp) = Ok (label cp)) data
    /\ (data = [] <-> candles = []).
Proof.
  intros H.
  destruct (chartData_ok formatDateLabel candles H) as (data & E & Hmap & Hl).
  assert (Hlen : List.length data = List.length candles).
  { rewrite <- (length_map point), Hmap. apply addIndicators_length. }
  exists data. repeat split; try assumption.
  - intros ->. destruct candles; [reflexivity | discriminate Hlen].
  - intros ->. destruct data; [reflexivity | discriminate Hlen].
Qed.

Lemma chartData_follows_candles_witness :
  exists data,
    chartData (fun s => Ok s) (Some zigzag) = Ok data
    /\ map point data = addIndicators zigzag
    /\ List.length data = List.length zigzag
    /\ Forall (fun cp : ChartPoint => Ok (date cp) = Ok (label cp)) data
    /\ (data = [] <-> zigzag = []).
Proof.
  apply (chartData_follows_candles (fun s => Ok s) zigzag).
  intros c _. now eexists.
Defined.

(** X16: [fetchData] always ends the loading. It sets the analysis only
    for an ok answer whose payload has no error message and at least one
    candle, and then leaves the error unset; in every other case it sets an
    error message and no analysis: "Failed to load data" for an answer that
    is not ok, the payload's message when it has one, and "No candles
    provided for analysis" for an empty array of candles. *)
Theorem fetchData_sets_error_or_analysis (fetched : Fetched) :
  let st := fetchData initial_state fetched in
  Dashboard.loading st = false
  /\ ((exists payload cs a,
          fetched = fetch_resolved true (inr payload)
          /\ truthy_message (Api.error payload) = false
          /\ Api.candles payload = Some cs /\ cs <> []
          /\ analyzeNifty cs = Ok a
          /\ st = Dashboard.mkState false None (Some cs) (Some a)
                    (Api.meta payload) (Api.fetchedAt payload))
      \/ (exists message,
            Dashboard.error st = Some message
            /\ Dashboard.analysis st = None))
  /\ (forall json, fetched = fetch_resolved false json ->
        Dashboard.error st = Some "Failed to load data"%string)
  /\ (forall payload e,
        fetched = fetch_resolved true (inr payload) ->
        Api.error payload = Some e -> e <> EmptyString ->
        Dashboard.error st = Some e)
  /\ (forall payload,
        fetched = fetch_resolved true (inr payload) ->
        truthy_message (Api.error payload) = false ->
        Api.candles payload = Some [] ->
        Dashboard.error st = Some "No candles provided for analysis"%string).
Proof.
  cbv zeta.
  assert (Hmain :
    Dashboard.loading (fetchData initial_state fetched) = false
    /\ ((exists payload cs a,
            fetched = fetch_resolved true (inr payload)
            /\ truthy_message (Api.error payload) = false
            /\ Api.candles payload = Some cs /\ cs <> []
            /\ analyzeNifty cs = Ok a
            /\ fetchData initial_state fetched
               = Dashboard.mkState false None (Some cs) (Some a)
                   (Api.meta payload) (Api.fetchedAt payload))
        \/ (exists message,
              Dashboard.error (fetchData initial_state fetched)
              = Some message
              /\ Dashboard.analysis (fetchData initial_state fetched)
                 = None))).
  { destruct fetched as [err|ok [err|payload]]; cbn [fetchData].
    - split; [reflexivity|]. right. now eexists.
    - destruct ok; cbn [negb]; (split; [reflexivity|]); right; now eexists.
    - destruct ok; cbn [negb];
        [|split; [reflexivity|]; right; now eexists].
      destruct (truthy_message (Api.error payload)) eqn:Et;
        [split; [reflexivity|]; right; now eexists|].
      destruct (Api.candles payload) as [cs|] eqn:Ec; cbn [analyze_payload];
        [|split; [reflexivity|]; right; now eexists].
      destruct (analyzeNifty cs) as [a|m] eqn:Ea;
        [|split; [reflexivity|]; right; now eexists].
      split; [reflexivity|]. left. exists payload, cs, a.
      repeat split; try assumption.
      intros ->. discriminate Ea. }
  destruct Hmain as [Hload Hcases].
  split; [exact Hload|]. split; [exact Hcases|]. split; [|split].
  - intros json ->. reflexivity.
  - intros payload e -> Ee Hne. cbn [fetchData negb].
    rewrite Ee. cbn [truthy_message].
    destruct e; [contradiction | reflexivity].
  - intros payload -> Et Ec. cbn [fetchData negb]. rewrite Et, Ec.
    reflexivity.
Qed.

(** ** From the route to the dashboard *)

Lemma rendered_charts (formatDateLabel : string -> result string)
    (cs : list Candle) (a : NiftyAnalysis) (meta : option Yahoo.Meta)
    (fetchedAt : option string) :
  cs <> [] ->
  (forall c, In c cs -> exists l, formatDateLabel (date c) = Ok l) ->
  exists data lastPoint,
    rendered_branch formatDateLabel
      (Dashboard.mkState false None (Some cs) (Some a) meta fetchedAt)
    = Ok (charts a data lastPoint)
    /\ map point data = addIndicators cs
    /\ nth_error data (List.length data - 1) = Some lastPoint.
Proof.
  intros Hne Hlabels.
  destruct (chartData_ok formatDateLabel cs Hlabels) as (data & E & Hmap & _).
  assert (Hlen : List.length data = List.length cs).
  { rewrite <- (length_map point), Hmap. apply addIndicators_length. }
  assert (Hpos : (0 < List.length data)%nat).
  { rewrite Hlen. destruct cs; [contradiction | cbn; lia]. }
  destruct (nth_error data (List.length data - 1)) as [lastPoint|] eqn:El;
    [|apply nth_error_None in El; lia].
  exists data, lastPoint. split; [|split; [exact Hmap | exact El]].
  unfold rendered_branch. cbn [Dashboard.candles Dashboard.loading
    Dashboard.analysis Dashboard.error truthy_message orb].
  rewrite E.
  destruct (Z.eqb_spec (len data) 0) as [E0|_]; [unfold len in E0; lia|].
  replace (len data - 1) with (Z.of_nat (List.length data - 1))
    by (unfold len; lia).
  now rewrite at_index_nat, El.
Qed.

(** X17: when the dashboard receives the reply of the route, and every
    ISO date can be labelled, it ends in one of two ways. Either the route
    replied 502, and the dashboard shows the error panel with "Failed to
    load data" (the route's own message is never shown); or the route
    replied 200 with at least one candle, and the dashboard holds the
    analysis of these candles and renders the charts with one point per
    candle. The "no candles" error of [analyzeNifty] cannot occur. *)
Theorem route_feeds_dashboard (toISOString : Z -> string)
    (formatDateLabel : string -> result string) (upstream : Upstream)
    (now : string) :
  (forall z, exists l, formatDateLabel (toISOString z) = Ok l) ->
  let reply := GET toISOString upstream now in
  let st := fetchData initial_state (delivered reply) in
  (status reply = 502
   /\ st = Dashboard.mkState false (Some "Failed to load data"%string)
             (Some []) None None None
   /\ rendered_branch formatDateLabel st
      = Ok (error_panel "Failed to load data"))
  \/ (exists cs meta a data lastPoint,
        reply = mkApiReply 200 (api_data cs meta "Yahoo Finance" now)
        /\ cs <> []
        /\ analyzeNifty cs = Ok a
        /\ st = Dashboard.mkState false None (Some cs) (Some a) meta
                  (Some now)
        /\ rendered_branch formatDateLabel st = Ok (charts a data lastPoint)
        /\ map point data = addIndicators cs
        /\ nth_error data (List.length data - 1) = Some lastPoint).
Proof.
  intros Hlabels. cbv zeta.
  assert (Hbad :
    status bad_gateway = 502
    /\ fetchData initial_state (delivered bad_gateway)
       = Dashboard.mkState false (Some "Failed to load data"%string)
           (Some []) None None None
    /\ rendered_branch formatDateLabel
         (fetchData initial_state (delivered bad_gateway))
       = Ok (error_panel "Failed to load data")).
  { repeat split. }
  destruct upstream as [|ok [raw|]]; cbn [GET]; [now left | | now destruct ok; left].
  destruct ok; cbn [negb]; [|now left].
  destruct (normalizeCandles toISOString raw) as [cs|m] eqn:E; [|now left].
  destruct cs as [|c cs]; [now left|].
  right.
  change (len (c :: cs) =? 0) with false. cbv iota.
  assert (Hne : c :: cs <> []) by discriminate.
  destruct (analyzeNifty_fields (c :: cs) Hne) as (a & _ & Ea & _).
  assert (Hdates : forall x, In x (c :: cs) ->
                     exists l, formatDateLabel (date x) = Ok l).
  { intros x Hx.
    pose proof (normalizeCandles_ok_rows toISOString raw (c :: cs) E) as Hrows.
    rewrite Forall_forall in Hrows.
    destruct (Hrows x Hx) as (idx & _ & ts & _ & Hd & _).
    rewrite Hd. apply Hlabels. }
  assert (Hst : fetchData initial_state
                  (delivered
                     (mkApiReply 200
                        (api_data (c :: cs)
                           (chain (first_result raw) Yahoo.meta)
                           "Yahoo Finance" now)))
                = Dashboard.mkState false None (Some (c :: cs)) (Some a)
                    (chain (first_result raw) Yahoo.meta) (Some now)).
  { cbn [delivered status body payload_of fetchData negb andb Z.leb
      Z.compare Pos.compare Pos.compare_cont].
    cbn [Api.error truthy_message Api.candles analyze_payload].
    rewrite Ea. reflexivity. }
  destruct (rendered_charts formatDateLabel (c :: cs) a
              (chain (first_result raw) Yahoo.meta) (Some now) Hne Hdates)
    as (data & lastPoint & Er & Hmap & El).
  exists (c :: cs), (chain (first_result raw) Yahoo.meta), a, data, lastPoint.
  rewrite Hst. repeat split; assumption.
Qed.

Lemma route_feeds_dashboard_witness :
  let reply :=
    GET (fun _ => EmptyString)
      (upstream_answered true (Some sample_response)) "now" in
  let st := fetchData initial_state (delivered reply) in
  (status reply = 502
   /\ st = Dashboard.mkState false (Some "Failed to load data"%string)
             (Some []) None None None
   /\ rendered_branch (fun s => Ok s) st
      = Ok (error_panel "Failed to load data"))
  \/ (exists cs meta a data lastPoint,
        reply = mkApiReply 200 (api_data cs meta "Yahoo Finance" "now")
        /\ cs <> []
        /\ analyzeNifty cs = Ok a
        /\ st = Dashboard.mkState false None (Some cs) (Some a) meta
                  (Some "now"%string)
        /\ rendered_branch (fun s => Ok s) st = Ok (charts a data lastPoint)
        /\ map point data = addIndicators cs
        /\ nth_error data (List.length data - 1) = Some lastPoint).
Proof.
  apply (route_feeds_dashboard (fun _ => EmptyString) (fun s => Ok s)).
  intros z. now eexists.
Defined.

(** ** Extreme headlines *)



(** * Values in double arithmetic

    The properties that name a value, proved on the embedding over
    doubles. *)

(** ** Doubles: representation, signs and special values *)

Section DoubleFacts.
Import SpecFloat FloatOps FloatAxioms.

Lemma digits2_pos_bounds (p : positive) :
  2 ^ (Z.pos (digits2_pos p) - 1) <= Z.pos p < 2 ^ Z.pos (digits2_pos p).
Proof.
  induction p as [p IH|p IH|]; cbn [digits2_pos].
  - rewrite Pos2Z.inj_succ.
    replace (Z.succ (Z.pos (digits2_pos p)) - 1)
      with (Z.succ (Z.pos (digits2_pos p) - 1)) by lia.
    rewrite !Z.pow_succ_r by lia. lia.
  - rewrite Pos2Z.inj_succ.
    replace (Z.succ (Z.pos (digits2_pos p)) - 1)
      with (Z.succ (Z.pos (digits2_pos p) - 1)) by lia.
    rewrite !Z.pow_succ_r by lia. lia.
  - cbn. lia.
Qed.

Lemma digits2_pos_unique (p : positive) (d : Z) :
  2 ^ (d - 1) <= Z.pos p < 2 ^ d -> Z.pos (digits2_pos p) = d.
Proof.
  intros [Hlo Hhi]. pose proof (digits2_pos_bounds p) as [Blo Bhi].
  assert (Hd : 0 < d).
  { destruct (Z.ltb_spec 0 d) as [H|H]; [exact H|].
    assert (2 ^ d <= 2 ^ 0) by (apply Z.pow_le_mono_r; lia).
    change (2 ^ 0) with 1 in *. lia. }
  assert (H1 : Z.pos (digits2_pos p) - 1 < d).
  { apply (Z.pow_lt_mono_r_iff 2); lia. }
  assert (H2 : d - 1 < Z.pos (digits2_pos p)).
  { apply (Z.pow_lt_mono_r_iff 2); lia. }
  lia.
Qed.

Lemma digits2_pos_le (p : positive) (d : Z) :
  Z.pos p < 2 ^ d -> Z.pos (digits2_pos p) <= d.
Proof.
  intros H. pose proof (digits2_pos_bounds p) as [Blo _].
  destruct (Z.leb_spec (Z.pos (digits2_pos p)) d) as [Hle|Hgt]; [exact Hle|].
  assert (2 ^ d <= 2 ^ (Z.pos (digits2_pos p) - 1))
    by (apply Z.pow_le_mono_r; lia).
  lia.
Qed.

(** An integer below [2 ^ 53] in magnitude is a double. *)
Lemma integer_valid (s : bool) (n : Z) :
  Z.abs n < 2 ^ 53 -> valid_binary (Double.integer s n) = true.
Proof.
  intros Hn.
  assert (H : forall (b : bool) (p : positive),
            Z.pos p < 2 ^ 53 ->
            let k := 53 - Z.pos (digits2_pos p) in
            bounded prec emax (Z.to_pos (Z.shiftl (Z.pos p) k)) (- k) = true).
  { intros b p Hp k.
    pose proof (digits2_pos_le p 53 Hp) as Hd.
    pose proof (digits2_pos_bounds p) as [Blo Bhi].
    assert (Hk : 0 <= k) by (unfold k; lia).
    assert (Hpos : 0 < Z.pos p * 2 ^ k) by (apply Z.mul_pos_pos; lia).
    assert (Es : Z.pos (Z.to_pos (Z.shiftl (Z.pos p) k)) = Z.pos p * 2 ^ k).
    { rewrite Z.shiftl_mul_pow2 by exact Hk. apply Z2Pos.id. exact Hpos. }
    assert (Ed : Z.pos (digits2_pos (Z.to_pos (Z.shiftl (Z.pos p) k))) = 53).
    { apply digits2_pos_unique. rewrite Es.
      replace 53 with (Z.pos (digits2_pos p) + k) at 2 by (unfold k; lia).
      replace (53 - 1) with (Z.pos (digits2_pos p) - 1 + k) by (unfold k; lia).
      rewrite !Z.pow_add_r by lia. nia. }
    unfold bounded, canonical_mantissa, fexp, emin.
    rewrite Ed. apply andb_true_iff. split.
    - apply Z.eqb_eq. unfold prec, emax. lia.
    - apply Z.leb_le. unfold prec, emax. lia. }
  destruct n as [|p|p]; [reflexivity | |]; cbn [Double.integer valid_binary];
    apply (H s); exact Hn.
Qed.

Lemma Qpower2_nonneg (k : Z) : 0 <= k -> (2 ^ k == inject_Z (2 ^ k))%Q.
Proof.
  intros Hk. rewrite Zpower_Qpower by exact Hk. reflexivity.
Qed.

Lemma Qpower2_neg (k : Z) : 0 <= k -> (2 ^ (- k) == / inject_Z (2 ^ k))%Q.
Proof.
  intros Hk. rewrite Qpower_opp, Zpower_Qpower by exact Hk. reflexivity.
Qed.

Lemma inject_Z_pow2_pos (k : Z) : 0 <= k -> (0 < inject_Z (2 ^ k))%Q.
Proof.
  intros Hk. change 0%Q with (inject_Z 0). rewrite <- Zlt_Qlt.
  apply Z.pow_pos_nonneg; lia.
Qed.

(** The double of an integer stands for that integer. *)
Lemma integer_rational (s : bool) (n : Z) :
  Z.abs n < 2 ^ 53 ->
  exists r, Double.rational (Double.integer s n) = Some r
            /\ (r == inject_Z n)%Q.
Proof.
  intros Hn.
  assert (H : forall p : positive,
            Z.pos p < 2 ^ 53 ->
            let k := 53 - Z.pos (digits2_pos p) in
            (inject_Z (Z.pos (Z.to_pos (Z.shiftl (Z.pos p) k))) * 2 ^ (- k)
             == inject_Z (Z.pos p))%Q).
  { intros p Hp k.
    pose proof (digits2_pos_le p 53 Hp) as Hd.
    assert (Hk : 0 <= k) by (unfold k; lia).
    assert (Hpos : 0 < Z.pos p * 2 ^ k) by (apply Z.mul_pos_pos; lia).
    rewrite Z.shiftl_mul_pow2, Z2Pos.id by assumption.
    rewrite inject_Z_mult, Qpower2_neg by exact Hk.
    pose proof (inject_Z_pow2_pos k Hk) as H2.
    field. intros E. rewrite E in H2. apply (Qlt_irrefl 0), H2. }
  destruct n as [|p|p]; cbn [Double.integer Double.rational].
  - exists 0%Q. split; reflexivity.
  - eexists. split; [reflexivity|]. apply H. exact Hn.
  - eexists. split; [reflexivity|].
    change (Z.neg (Z.to_pos (Z.shiftl (Z.pos p) (53 - Z.pos (digits2_pos p)))))
      with (- Z.pos (Z.to_pos (Z.shiftl (Z.pos p) (53 - Z.pos (digits2_pos p))))).
    change (Z.neg p) with (- Z.pos p).
    rewrite !inject_Z_opp.
    setoid_replace (- inject_Z (Z.pos (Z.to_pos (Z.shiftl (Z.pos p) (53 - Z.pos (digits2_pos p)))))
                    * 2 ^ (- (53 - Z.pos (digits2_pos p))))%Q
      with (- (inject_Z (Z.pos (Z.to_pos (Z.shiftl (Z.pos p) (53 - Z.pos (digits2_pos p)))))
               * 2 ^ (- (53 - Z.pos (digits2_pos p)))))%Q by ring.
    rewrite (H p) by exact Hn. reflexivity.
Qed.

(** The mantissa of a double has at most 53 binary digits. *)
Lemma mantissa_bound (s : bool) (m : positive) (e : Z) :
  valid_binary (S754_finite s m e) = true -> Z.pos m < 2 ^ 53.
Proof.
  cbn [valid_binary]. unfold bounded, canonical_mantissa, fexp, emin.
  intros H. apply andb_true_iff in H. destruct H as [H _].
  apply Z.eqb_eq in H. unfold prec, emax in H.
  pose proof (digits2_pos_bounds m) as [_ Bhi].
  assert (Hd : Z.pos (digits2_pos m) <= 53) by lia.
  eapply Z.lt_le_trans; [exact Bhi|]. apply Z.pow_le_mono_r; lia.
Qed.

Lemma Qfloor_half_of_ratio (v d : Z) :
  0 < d ->
  Qfloor (inject_Z v / inject_Z d + (1 # 2)) = (2 * v + d) / (2 * d).
Proof.
  intros Hd.
  assert (Hd' : (0 < inject_Z d)%Q)
    by (change 0%Q with (inject_Z 0); rewrite <- Zlt_Qlt; exact Hd).
  assert (Hnz : ~ (inject_Z d == 0)%Q)
    by (intros E; rewrite E in Hd'; apply (Qlt_irrefl 0), Hd').
  assert (E : (inject_Z v / inject_Z d + (1 # 2)
               == inject_Z (2 * v + d) / inject_Z (2 * d))%Q).
  { rewrite inject_Z_plus, !inject_Z_mult. field. exact Hnz. }
  assert (H2d : (0 < inject_Z (2 * d))%Q)
    by (change 0%Q with (inject_Z 0); rewrite <- Zlt_Qlt; lia).
  rewrite (Qfloor_comp _ _ E).
  apply Qfloor_unique.
  - apply Qle_shift_div_l; [exact H2d|].
    rewrite <- inject_Z_mult, <- Zle_Qle.
    pose proof (Z.mul_div_le (2 * v + d) (2 * d)). lia.
  - apply Qlt_shift_div_r; [exact H2d|].
    rewrite <- inject_Z_mult, <- Zlt_Qlt.
    pose proof (Z.mul_succ_div_gt (2 * v + d) (2 * d)). lia.
Qed.

Lemma nearest_integer_bound (v d : Z) :
  Z.abs v < 2 ^ 53 -> 2 <= d -> Z.abs ((2 * v + d) / (2 * d)) < 2 ^ 53.
Proof.
  intros Hv Hd.
  set (P := 2 ^ 53) in *.
  assert (HP : 4 <= P) by (unfold P; lia).
  set (n := (2 * v + d) / (2 * d)).
  assert (Hlo : 2 * d * n <= 2 * v + d) by (apply Z.mul_div_le; lia).
  assert (Hhi : 2 * v + d < 2 * d * Z.succ n)
    by (apply Z.mul_succ_div_gt; lia).
  clearbody n P. nia.
Qed.

(** [Math.round] on the representation: the result is a double, and it
    stands for [floor (q + 1/2)] when the argument stands for [q]. *)
Lemma round_to_integer_rational (x : spec_float) (q : Q) :
  valid_binary x = true ->
  Double.rational x = Some q ->
  valid_binary (Double.round_to_integer x) = true
  /\ exists r, Double.rational (Double.round_to_integer x) = Some r
               /\ (r == inject_Z (Qfloor (q + (1 # 2))))%Q.
Proof.
  intros Hvalid Hq.
  destruct x as [s|s| |s m e]; try discriminate.
  - cbn in Hq. injection Hq as <-. split; [reflexivity|].
    exists 0%Q. split; reflexivity.
  - cbn [Double.rational] in Hq. injection Hq as <-.
    cbn [Double.round_to_integer].
    set (v := if s then Z.neg m else Z.pos m).
    pose proof (mantissa_bound s m e Hvalid) as Hm.
    assert (Hv : Z.abs v < 2 ^ 53) by (unfold v; destruct s; exact Hm).
    destruct (Z.ltb_spec e 0) as [Hneg|Hnonneg].
    + set (d := 2 ^ (- e)).
      assert (Hd : 2 <= d).
      { unfold d. change 2 with (2 ^ 1) at 1. apply Z.pow_le_mono_r; lia. }
      pose proof (nearest_integer_bound v d Hv Hd) as Hn.
      split; [apply integer_valid; exact Hn|].
      destruct (integer_rational s _ Hn) as (r & Er & Hr).
      exists r. split; [exact Er|]. rewrite Hr.
      assert (E : (inject_Z v * 2 ^ e == inject_Z v / inject_Z d)%Q).
      { replace e with (- (- e)) at 1 by lia.
        rewrite Qpower2_neg by lia. reflexivity. }
      rewrite (Qfloor_comp _ _ (Qplus_comp _ _ E _ _ (Qeq_refl (1 # 2)))).
      rewrite Qfloor_half_of_ratio by lia. reflexivity.
    + split; [exact Hvalid|].
      eexists. split; [reflexivity|].
      assert (E : (inject_Z v * 2 ^ e == inject_Z (v * 2 ^ e))%Q).
      { rewrite inject_Z_mult, Qpower2_nonneg by exact Hnonneg. reflexivity. }
      rewrite E.
      assert (F : Qfloor (inject_Z (v * 2 ^ e) + (1 # 2)) = v * 2 ^ e).
      { apply Qfloor_unique.
        - rewrite <- (Qplus_0_r (inject_Z (v * 2 ^ e))) at 1.
          apply Qplus_le_r. discriminate.
        - rewrite inject_Z_plus. apply Qplus_lt_r. reflexivity. }
      rewrite F. exact E.
Qed.

(** [Math.round] of a finite double is the double of
    [floor (q + 1/2)]. *)
Lemma Math_round_exact (x : float) (q : Q) :
  Double.exact x = Some q ->
  exists r, Double.exact (Double.Math_round x) = Some r
            /\ (r == inject_Z (Qfloor (q + (1 # 2))))%Q.
Proof.
  intros Hq. unfold Double.exact, Double.Math_round in *.
  destruct (round_to_integer_rational _ q (Prim2SF_valid x) Hq)
    as (Hvalid & r & Er & Hr).
  rewrite Prim2SF_SF2Prim by exact Hvalid.
  exists r. split; [exact Er | exact Hr].
Qed.

(** [Math.round] returns NaN and the infinities as they are. *)
Lemma Math_round_not_finite (x : float) :
  Double.exact x = None -> Double.Math_round x = x.
Proof.
  unfold Double.exact, Double.Math_round. intros H.
  destruct (Prim2SF x) as [s|s| |s m e] eqn:E; try discriminate;
    cbn [Double.round_to_integer]; rewrite <- E; apply SF2Prim_Prim2SF.
Qed.
End DoubleFacts.

Section DoubleSigns.
Import SpecFloat FloatOps FloatAxioms.

Lemma SFabs_binary_round_aux (s : bool) (m e : Z) (l : location) :
  SFabs (binary_round_aux prec emax s m e l)
  = binary_round_aux prec emax false m e l.
Proof.
  unfold binary_round_aux.
  destruct (shr_fexp prec emax m e l) as [mrs' e'].
  destruct (shr_fexp prec emax _ e' loc_Exact) as [mrs'' e''].
  destruct (shr_m mrs''); [reflexivity | | reflexivity].
  destruct (e'' <=? emax - prec); reflexivity.
Qed.

Lemma sign_of_binary_round_aux (m e : Z) (l : location) :
  Double.sign_of (binary_round_aux prec emax false m e l) = false.
Proof.
  unfold binary_round_aux.
  destruct (shr_fexp prec emax m e l) as [mrs' e'].
  destruct (shr_fexp prec emax _ e' loc_Exact) as [mrs'' e''].
  destruct (shr_m mrs''); [reflexivity | | reflexivity].
  destruct (e'' <=? emax - prec); reflexivity.
Qed.

Lemma SFabs_SFdiv (x y : spec_float) :
  Double.sign_of y = false ->
  SFabs (SF64div x y) = SF64div (SFabs x) y.
Proof.
  intros Hy. unfold SF64div, SFdiv.
  destruct x as [sx|sx| |sx mx ex], y as [sy|sy| |sy my ey];
    cbn [Double.sign_of] in Hy; subst; cbn [SFabs xorb];
    rewrite ?xorb_false_r; try reflexivity.
  destruct (SFdiv_core_binary prec emax (Z.pos mx) ex (Z.pos my) ey)
    as [[mz ez] lz].
  apply SFabs_binary_round_aux.
Qed.

(** Over a reference whose sign bit is clear, the absolute value of the
    ratio is the ratio of the absolute value. *)
Lemma abs_div (x y : float) :
  Double.sign_bit y = false ->
  PrimFloat.abs (x / y) = (PrimFloat.abs x / y)%float.
Proof.
  intros Hy. apply Prim2SF_inj.
  rewrite abs_spec, !div_spec, abs_spec. apply SFabs_SFdiv. exact Hy.
Qed.

Lemma sign_of_SFadd (x y : spec_float) :
  Double.sign_of x = false -> Double.sign_of y = false ->
  Double.sign_of (SF64add x y) = false.
Proof.
  intros Hx Hy. unfold SF64add, SFadd.
  destruct x as [sx|sx| |sx mx ex], y as [sy|sy| |sy my ey];
    cbn [Double.sign_of] in Hx, Hy; subst; try reflexivity.
  cbn [cond_Zopp Z.add binary_normalize]. unfold binary_round.
  destruct (shl_align _ _ _) as [mz ez].
  apply sign_of_binary_round_aux.
Qed.

Lemma sign_of_SFmul (x y : spec_float) :
  Double.sign_of x = false -> Double.sign_of y = false ->
  Double.sign_of (SF64mul x y) = false.
Proof.
  intros Hx Hy. unfold SF64mul, SFmul.
  destruct x as [sx|sx| |sx mx ex], y as [sy|sy| |sy my ey];
    cbn [Double.sign_of] in Hx, Hy; subst; try reflexivity.
  apply sign_of_binary_round_aux.
Qed.

Lemma sign_of_SFdiv (x y : spec_float) :
  Double.sign_of x = false -> Double.sign_of y = false ->
  Double.sign_of (SF64div x y) = false.
Proof.
  intros Hx Hy. unfold SF64div, SFdiv.
  destruct x as [sx|sx| |sx mx ex], y as [sy|sy| |sy my ey];
    cbn [Double.sign_of] in Hx, Hy; subst; try reflexivity.
  destruct (SFdiv_core_binary prec emax (Z.pos mx) ex (Z.pos my) ey)
    as [[mz ez] lz].
  apply sign_of_binary_round_aux.
Qed.

Lemma round_to_integer_valid (x : spec_float) :
  valid_binary x = true -> valid_binary (Double.round_to_integer x) = true.
Proof.
  intros Hx. destruct (Double.rational x) as [q|] eqn:E.
  - exact (proj1 (round_to_integer_rational x q Hx E)).
  - destruct x; try discriminate; reflexivity.
Qed.

Lemma sign_of_round_to_integer (x : spec_float) :
  Double.sign_of x = false ->
  Double.sign_of (Double.round_to_integer x) = false.
Proof.
  intros Hx. destruct x as [s|s| |s m e]; try exact Hx.
  cbn [Double.sign_of] in Hx. subst. cbn [Double.round_to_integer].
  destruct (Z.ltb_spec e 0) as [He|He]; [|reflexivity].
  assert (Hd : 0 < 2 ^ (- e)) by (apply Z.pow_pos_nonneg; lia).
  assert (H : 0 <= (2 * Z.pos m + 2 ^ (- e)) / (2 * 2 ^ (- e)))
    by (apply Z.div_pos; lia).
  destruct ((2 * Z.pos m + 2 ^ (- e)) / (2 * 2 ^ (- e))); try reflexivity.
  lia.
Qed.

Lemma sign_bit_add (x y : float) :
  Double.sign_bit x = false -> Double.sign_bit y = false ->
  Double.sign_bit (x + y) = false.
Proof. unfold Double.sign_bit. rewrite add_spec. apply sign_of_SFadd. Qed.

Lemma sign_bit_mul (x y : float) :
  Double.sign_bit x = false -> Double.sign_bit y = false ->
  Double.sign_bit (x * y) = false.
Proof. unfold Double.sign_bit. rewrite mul_spec. apply sign_of_SFmul. Qed.

Lemma sign_bit_div (x y : float) :
  Double.sign_bit x = false -> Double.sign_bit y = false ->
  Double.sign_bit (x / y) = false.
Proof. unfold Double.sign_bit. rewrite div_spec. apply sign_of_SFdiv. Qed.

Lemma sign_bit_Math_round (x : float) :
  Double.sign_bit x = false -> Double.sign_bit (Double.Math_round x) = false.
Proof.
  unfold Double.sign_bit, Double.Math_round. intros Hx.
  rewrite Prim2SF_SF2Prim
    by (apply round_to_integer_valid, Prim2SF_valid).
  apply sign_of_round_to_integer. exact Hx.
Qed.

Lemma sign_bit_round2 (x : float) :
  Double.sign_bit x = false -> Double.sign_bit (Double.round2 x) = false.
Proof.
  intros Hx. unfold Double.round2, Double.round.
  apply sign_bit_div; [|reflexivity].
  apply sign_bit_Math_round, sign_bit_mul; [exact Hx | reflexivity].
Qed.

Lemma sign_bit_sum (xs : list float) :
  (forall x, In x xs -> Double.sign_bit x = false) ->
  Double.sign_bit (Double.sum xs) = false.
Proof.
  unfold Double.sum.
  assert (H : forall acc,
            Double.sign_bit acc = false ->
            (forall x, In x xs -> Double.sign_bit x = false) ->
            Double.sign_bit
              (fold_left (fun acc value => (acc + value)%float) xs acc)
            = false).
  { induction xs as [|x rest IH]; intros acc Hacc Hxs; [exact Hacc|].
    cbn [fold_left]. apply IH.
    - apply sign_bit_add; [exact Hacc | apply Hxs; now left].
    - intros y Hy. apply Hxs. now right. }
  apply H. reflexivity.
Qed.

(** A double that equals zero is one of the two zeros. *)
Lemma eqb_zero (x : float) :
  (x =? 0)%float = true -> exists s, Prim2SF x = S754_zero s.
Proof.
  rewrite eqb_spec. unfold SFeqb.
  change (Prim2SF 0) with (S754_zero false).
  destruct (Prim2SF x) as [s|s| |s m e]; cbn; try discriminate.
  - intros _. now exists s.
  - destruct s; discriminate.
  - destruct s; discriminate.
Qed.

Lemma rational_none_not_finite (x : float) :
  Double.exact x = None -> Double.not_finite x.
Proof.
  unfold Double.exact, Double.not_finite. intros H.
  destruct (Prim2SF x) as [s|s| |s m e] eqn:E; try discriminate.
  - right. destruct s; [right | left]; apply Prim2SF_inj; rewrite E;
      reflexivity.
  - left. apply Prim2SF_inj. rewrite E. reflexivity.
Qed.

(** The percentage change over a zero reference is NaN or an infinity. *)
Lemma pct_change_zero_reference (value reference : float) :
  (reference =? 0)%float = true ->
  Double.not_finite (Double.pct_change value reference).
Proof.
  intros Hz. destruct (eqb_zero reference Hz) as (s & Es).
  apply rational_none_not_finite.
  unfold Double.pct_change, Double.round.
  set (p := ((value - reference) / reference * 100)%float).
  assert (Hp : Double.exact (p * Double.of_Z (10 ^ 2)) = None).
  { unfold Double.exact, p. rewrite !mul_spec, div_spec, sub_spec, Es.
    change (Prim2SF 100) with (S754_finite false 7036874417766400 (-46)).
    change (Prim2SF (Double.of_Z (10 ^ 2)))
      with (S754_finite false 7036874417766400 (-46)).
    destruct (Prim2SF value) as [sv|sv| |sv mv ev]; destruct s;
      try destruct sv; reflexivity. }
  rewrite (Math_round_not_finite _ Hp).
  unfold Double.exact in *. rewrite div_spec.
  change (Prim2SF (Double.of_Z (10 ^ 2)))
    with (S754_finite false 7036874417766400 (-46)).
  destruct (Prim2SF (p * Double.of_Z (10 ^ 2))) as [sp|sp| |sp mp ep];
    try discriminate; reflexivity.
Qed.
End DoubleSigns.

(** ** The run of [addIndicators] over doubles *)

Section DoubleRun.
Variable closes : list float.

Lemma double_push_change_after (n : nat) :
  Double.push_change closes (Z.of_nat n)
    (Double.gains_after closes n) (Double.losses_after closes n)
  = (Double.gains_after closes (S n), Double.losses_after closes (S n)).
Proof.
  unfold Double.push_change, Double.gains_after, Double.losses_after.
  rewrite !seq_S, !map_app. simpl.
  destruct n as [|n]; [reflexivity|].
  destruct (Z.eqb_spec (Z.of_nat (S n)) 0); [lia | reflexivity].
Qed.

Lemma double_map_from_run (cs : list Double.Candle) : forall n : nat,
  Double.map_from closes cs (Z.of_nat n)
    (Double.gains_after closes n) (Double.losses_after closes n)
  = (map (fun ic => Double.point_at closes (fst ic) (snd ic))
       (combine (seq n (List.length cs)) cs),
     (Double.gains_after closes (n + List.length cs),
      Double.losses_after closes (n + List.length cs))).
Proof.
  induction cs as [|c rest IH]; intros n.
  - simpl. now rewrite Nat.add_0_r.
  - cbn [Double.map_from]. unfold Double.callback.
    rewrite double_push_change_after.
    replace (Z.of_nat n + 1) with (Z.of_nat (S n)) by lia.
    rewrite IH. cbn [List.length seq combine map fst snd].
    replace (S n + List.length rest)%nat
      with (n + S (List.length rest))%nat by lia.
    reflexivity.
Qed.
End DoubleRun.

Lemma double_addIndicators_run_eq (candles : list Double.Candle) :
  Double.addIndicators_run candles
  = (map (fun ic => Double.point_at (Double.closes_of candles)
                      (fst ic) (snd ic))
       (combine (seq 0 (List.length candles)) candles),
     (Double.gains_after (Double.closes_of candles) (List.length candles),
      Double.losses_after (Double.closes_of candles) (List.length candles))).
Proof.
  exact (double_map_from_run (Double.closes_of candles) candles 0).
Qed.

Lemma double_addIndicators_nth (candles : list Double.Candle) (i : nat) :
  nth_error (Double.addIndicators candles) i
  = option_map (Double.point_at (Double.closes_of candles) i)
      (nth_error candles i).
Proof.
  unfold Double.addIndicators. rewrite double_addIndicators_run_eq.
  cbn [fst]. rewrite nth_error_map, nth_error_combine_seq.
  destruct (nth_error candles i); reflexivity.
Qed.

Lemma double_addIndicators_length (candles : list Double.Candle) :
  List.length (Double.addIndicators candles) = List.length candles.
Proof.
  unfold Double.addIndicators. rewrite double_addIndicators_run_eq.
  cbn [fst]. rewrite length_map, length_combine, length_seq. lia.
Qed.


(** *** The closes and the pushed gains and losses, by position *)

Section DoublePositions.
Variable candles : list Double.Candle.

Lemma double_closes_tabulate :
  Double.closes_of candles
  = map (Double.close_at candles) (seq 0 (List.length candles)).
Proof.
  unfold Double.closes_of. apply tabulate_nth_error.
  intros k c E. unfold Double.close_at. now rewrite E.
Qed.






(** The mean the code computes over a trailing window of an array given
    by its elements. *)
Lemma double_window_mean (f : nat -> float) (size i p : nat) :
  (0 < p <= S i)%nat -> (S i <= size)%nat ->
  (Double.sum (slice (map f (seq 0 size))
                 (Z.of_nat (S i - p)) (Z.of_nat (S i)))
   / Double.of_Z (Z.of_nat p))%float
  = Double.trailing_mean f i p.
Proof.
  intros Hp Hi. rewrite slice_tabulate by lia.
  replace (S i - (S i - p))%nat with p by lia.
  reflexivity.
Qed.

Lemma double_computeSMA_mean (i : nat) (period : Z) :
  (i < List.length candles)%nat -> 0 < period ->
  Double.computeSMA (Double.closes_of candles) (Z.of_nat i) period
  = if period <=? Z.of_nat i + 1
    then Some (Double.round2
                 (Double.trailing_mean (Double.close_at candles) i
                    (Z.to_nat period)))
    else None.
Proof.
  intros Hi Hp. unfold Double.computeSMA.
  destruct (Z.ltb_spec (Z.of_nat i + 1) period) as [Hlt|Hge];
    destruct (Z.leb_spec period (Z.of_nat i + 1)); try lia; [reflexivity|].
  unfold Double.windowSlice.
  replace (Z.max 0 (Z.of_nat i - period + 1))
    with (Z.of_nat (S i - Z.to_nat period)) by lia.
  replace (Z.of_nat i + 1) with (Z.of_nat (S i)) by lia.
  replace period with (Z.of_nat (Z.to_nat period)) at 2 by lia.
  rewrite double_closes_tabulate.
  rewrite double_window_mean by lia. reflexivity.
Qed.



End DoublePositions.

(** ** SMA and RSI of a point, as the code computes them *)




(** ** The record [analyzeNifty] returns, over doubles *)

Lemma double_last_point_addIndicators (candles : list Double.Candle) :
  candles <> [] ->
  exists lp c,
    Double.last_point (Double.addIndicators candles) = Some lp
    /\ nth_error candles (List.length candles - 1) = Some c
    /\ lp = Double.point_at (Double.closes_of candles)
              (List.length candles - 1) c.
Proof.
  intros Hne. unfold Double.last_point.
  rewrite double_addIndicators_length, double_addIndicators_nth.
  destruct (nth_error candles (List.length candles - 1)) as [c|] eqn:E.
  - eexists _, c. repeat split.
  - apply nth_error_None in E.
    destruct candles; [contradiction | simpl in E; lia].
Qed.

Lemma double_previous_point_candle (candles : list Double.Candle) :
  (if len (Double.addIndicators candles) >? 1
   then at_index (Double.addIndicators candles)
          (len (Double.addIndicators candles) - 2)
   else None)
  = option_map (Double.point_at (Double.closes_of candles)
                  (List.length candles - 2))
      (Double.previous_candle candles).
Proof.
  unfold Double.previous_candle, len. rewrite double_addIndicators_length.
  destruct (Nat.ltb_spec 1 (List.length candles)) as [H|H].
  - destruct (Z.gtb_spec (Z.of_nat (List.length candles)) 1); [|lia].
    replace (Z.of_nat (List.length candles) - 2)
      with (Z.of_nat (List.length candles - 2)) by lia.
    now rewrite at_index_nat, double_addIndicators_nth.
  - destruct (Z.gtb_spec (Z.of_nat (List.length candles)) 1); [lia|].
    reflexivity.
Qed.

Lemma double_five_day_reference (candles : list Double.Candle) :
  match at_index candles (len candles - 6) with
  | Some c => Some c
  | None => at_index candles 0
  end = Double.reference_candle candles.
Proof.
  unfold Double.reference_candle, len.
  destruct (Nat.leb_spec 6 (List.length candles)) as [H|H].
  - replace (Z.of_nat (List.length candles) - 6)
      with (Z.of_nat (List.length candles - 6)) by lia.
    rewrite at_index_nat.
    destruct (nth_error candles (List.length candles - 6)) eqn:E;
      [reflexivity|].
    apply nth_error_None in E. lia.
  - unfold at_index at 1.
    destruct (Z.ltb_spec (Z.of_nat (List.length candles) - 6) 0); [|lia].
    exact (at_index_nat candles 0).
Qed.

Lemma double_trailing_window_length (candles : list Double.Candle) :
  List.length (Double.trailing_window candles)
  = Nat.min 15 (List.length candles).
Proof. unfold Double.trailing_window. rewrite length_skipn. lia. Qed.

(** On a non-empty sequence, each field of the record as a function of the
    last point, the previous candle, the reference candle and the trailing
    window. *)
Lemma double_analyzeNifty_parts (candles : list Double.Candle) :
  candles <> [] ->
  exists r lp,
    Double.analyzeNifty candles = Ok r
    /\ Double.last_point (Double.addIndicators candles) = Some lp
    /\ Double.lastClose r = Double.round2 (Double.close (Double.candle lp))
    /\ Double.previousClose r
       = option_map (fun c => Double.round2 (Double.close c))
           (Double.previous_candle candles)
    /\ Double.dailyChangePct r
       = match Double.previous_candle candles with
         | Some p =>
             if Double.truthy (Double.close p)
             then Some (Double.pct_change (Double.close (Double.candle lp)) (Double.close p))
             else None
         | None => None
         end
    /\ Double.momentumPct5Day r
       = option_map
           (fun c => Double.pct_change (Double.close (Double.candle lp)) (Double.close c))
           (Double.reference_candle candles)
    /\ Double.res_rsi14 r = Double.rsi14 lp
    /\ Double.bias r
       = Double.compute_bias (Double.lastClose r) (Double.sma20 lp)
           (Double.sma50 lp)
    /\ Double.confidence r
       = Double.compute_confidence (Double.lastClose r) (Double.rsi14 lp)
           (Double.sma20 lp) (Double.sma50 lp)
    /\ (Double.nextMoveHeadline r, Double.narrative r)
       = Double.compute_story (Double.bias r) (Double.rsi14 lp)
           (Double.sma20 lp) (Double.momentumPct5Day r)
           (Double.supportZone r) (Double.resistanceZone r)
    /\ Double.supportZone r
       = Some (Double.round2
                 (Double.min_list (map Double.low
                                     (Double.trailing_window candles))))
    /\ Double.resistanceZone r
       = Some (Double.round2
                 (Double.max_list (map Double.high
                                     (Double.trailing_window candles)))).
Proof.
  intros Hne.
  destruct (double_last_point_addIndicators candles Hne)
    as (lp & c & Elp & _ & _).
  unfold Double.analyzeNifty.
  assert (Hlen : (0 < List.length candles)%nat)
    by (destruct candles; [contradiction | simpl; lia]).
  destruct (Z.eqb_spec (len candles) 0) as [E0|_]; [unfold len in E0; lia|].
  rewrite double_previous_point_candle, double_five_day_reference.
  replace (len (Double.addIndicators candles) - 1)
    with (Z.of_nat (List.length (Double.addIndicators candles) - 1))
    by (unfold len; rewrite double_addIndicators_length; lia).
  rewrite at_index_nat. unfold Double.last_point in Elp. rewrite Elp.
  replace (slice_from candles (-15)) with (Double.trailing_window candles)
    by (symmetry; exact (slice_from_last candles 14)).
  assert (Hw : (len (Double.trailing_window candles) >? 0) = true).
  { unfold len. rewrite double_trailing_window_length. apply Z.gtb_lt. lia. }
  rewrite Hw.
  destruct (Double.previous_candle candles) as [prev|];
    destruct (Double.reference_candle candles) as [ref|]; cbn [option_map];
    match goal with
    | |- context [Double.compute_story ?b ?a1 ?a2 ?a3 ?a4 ?a5] =>
        destruct (Double.compute_story b a1 a2 a3 a4 a5)
          as [headline story] eqn:Es
    end;
    (eexists _, lp; split; [reflexivity|]; split; [exact Elp|]; cbn;
     repeat split; symmetry; exact Es).
Qed.

Lemma double_last_point_fields (candles : list Double.Candle)
    (lp : Double.IndicatorPoint) :
  Double.last_point (Double.addIndicators candles) = Some lp ->
  nth_error candles (List.length candles - 1) = Some (Double.candle lp)
  /\ lp = Double.point_at (Double.closes_of candles)
            (List.length candles - 1) (Double.candle lp).
Proof.
  unfold Double.last_point.
  rewrite double_addIndicators_length, double_addIndicators_nth.
  destruct (nth_error candles (List.length candles - 1)); [|discriminate].
  intros E. injection E as <-. split; reflexivity.
Qed.

(** ** Confidence *)

(** On closes whose sign bit is clear, the averages of the last point have
    their sign bit clear. *)
Lemma sma_sign_bit (candles : list Double.Candle) (i : nat) (period : Z)
    (v : float) :
  (forall c, In c candles -> Double.sign_bit (Double.close c) = false) ->
  (i < List.length candles)%nat ->
  period = 20 \/ period = 50 ->
  Double.computeSMA (Double.closes_of candles) (Z.of_nat i) period = Some v ->
  Double.sign_bit v = false.
Proof.
  intros Hc Hi Hp E.
  rewrite double_computeSMA_mean in E by (try exact Hi; lia).
  destruct (period <=? Z.of_nat i + 1); [|discriminate].
  injection E as <-. apply sign_bit_round2.
  unfold Double.trailing_mean. apply sign_bit_div.
  - apply sign_bit_sum. intros x Hx. apply in_map_iff in Hx.
    destruct Hx as (k & <- & _). unfold Double.close_at.
    destruct (nth_error candles k) as [c|] eqn:Ek; [|reflexivity].
    apply Hc. eapply nth_error_In. exact Ek.
  - destruct Hp as [-> | ->]; reflexivity.
Qed.

(** C5: the confidence is medium whenever [rsi14], [sma20] or [sma50] of
    the last point is absent; when all three are present, with
    [distanceFromSma] the relative distance of [lastClose] from [sma20], it
    is low if [distanceFromSma < 0.005] and the relative distance of
    [sma20] from [sma50] is below 0.003, otherwise high if
    [distanceFromSma > 0.02] or [rsi14 > 68] or [rsi14 < 32], otherwise
    medium; low is tested first. The code computes the distances as
    [|(a - b) / b|]; on prices whose sign bit is clear (positive prices)
    this is, bit for bit, [|a - b| / b], so that the rule holds with both
    readings. *)
Theorem confidence_from_distances (candles : list Double.Candle) :
  candles <> [] ->
  exists r lp,
    Double.analyzeNifty candles = Ok r
    /\ Double.last_point (Double.addIndicators candles) = Some lp
    /\ Double.confidence_rule Double.abs_of_ratio r lp
    /\ ((forall c, In c candles -> Double.sign_bit (Double.close c) = false) ->
          Double.confidence_rule Double.abs_over_reference r lp).
Proof.
  intros Hne.
  destruct (double_analyzeNifty_parts candles Hne)
    as (r & lp & Er & Elp & _ & _ & _ & _ & _ & _ & Ec & _).
  exists r, lp. split; [exact Er|]. split; [exact Elp|].
  assert (Hrule : Double.confidence_rule Double.abs_of_ratio r lp).
  { unfold Double.confidence_rule. rewrite Ec.
    unfold Double.compute_confidence. split.
    - intros [H | [H | H]]; rewrite H;
        repeat match goal with
               | |- context [match ?x with Some _ => _ | None => _ end] =>
                   destruct x
               end; reflexivity.
    - intros rsi s20 s50 -> -> ->. cbv zeta.
      unfold Double.num_lt, Double.gt, Double.lt, Double.abs_of_ratio.
      destruct (_ <? 0.005)%float; destruct (_ <? 0.003)%float;
        destruct (0.02 <? _)%float; destruct (68 <? rsi)%float;
        destruct (rsi <? 32)%float; cbn;
        repeat split; try reflexivity;
        try (intros [? ?]; discriminate);
        try (intros H; exfalso; apply H; now split);
        try (intros _ [? | [? | ?]]; discriminate);
        try (intros _ H; exfalso; apply H; tauto). }
  split; [exact Hrule|].
  intros Hsign.
  destruct (double_last_point_fields candles lp Elp) as (Hlast & Hlp).
  assert (Hi : (List.length candles - 1 < List.length candles)%nat)
    by (destruct candles; [contradiction | simpl; lia]).
  destruct Hrule as [Habsent Hpresent]. split; [exact Habsent|].
  intros rsi s20 s50 Ersi E20 E50.
  assert (H20 : Double.sign_bit s20 = false).
  { rewrite Hlp in E20. cbn [Double.sma20 Double.point_at] in E20.
    exact (sma_sign_bit candles _ 20 s20 Hsign Hi (or_introl eq_refl) E20). }
  assert (H50 : Double.sign_bit s50 = false).
  { rewrite Hlp in E50. cbn [Double.sma50 Double.point_at] in E50.
    exact (sma_sign_bit candles _ 50 s50 Hsign Hi (or_intror eq_refl) E50). }
  unfold Double.abs_over_reference.
  rewrite <- (abs_div _ s20 H20), <- (abs_div _ s50 H50).
  exact (Hpresent rsi s20 s50 Ersi E20 E50).
Qed.

Lemma confidence_from_distances_witness :
  exists r lp,
    Double.analyzeNifty (Double.flat_candles Double.around_22000) = Ok r
    /\ Double.last_point
         (Double.addIndicators (Double.flat_candles Double.around_22000))
       = Some lp
    /\ Double.confidence r = conf_low
    /\ Double.confidence_rule Double.abs_over_reference r lp.
Proof.
  assert (Hne : Double.flat_candles Double.around_22000 <> [])
    by discriminate.
  destruct (confidence_from_distances _ Hne) as (r & lp & Er & Elp & _ & H).
  exists r, lp. split; [exact Er|]. split; [exact Elp|].
  split.
  - vm_compute in Er. injection Er as <-. reflexivity.
  - apply H. intros c Hc.
    apply in_map_iff in Hc. destruct Hc as (x & <- & Hx).
    cbn [Double.close Double.flat_candle].
    assert (Hall : forallb (fun y => negb (Double.sign_bit y))
                     Double.around_22000 = true)
      by (vm_compute; reflexivity).
    rewrite forallb_forall in Hall. specialize (Hall x Hx).
    now apply negb_true_iff in Hall.
Defined.

(** ** Rounding *)

(** C7, as stated, fails on a negative tie: the product [-0.125 * 100] is
    exactly -12.5, [round(-0.125)] is -0.12, and rounding half away from
    zero gives -0.13. *)
Lemma round_is_not_half_away_from_zero :
  Double.round (-0.125) 2 = (-0.12)%float
  /\ (exists q, Double.exact (-0.125 * 100) = Some q /\ (q == - (25 # 2))%Q)
  /\ Double.round_half_away_2 (-0.125) = Some (-0.13)%float
  /\ (Double.round (-0.125) 2 =? -0.13)%float = false.
Proof.
  split; [vm_compute; reflexivity|].
  split; [eexists; split; [vm_compute; reflexivity | reflexivity]|].
  split; vm_compute; reflexivity.
Qed.

(** C7 (amended): [round(v, 2)] is [Math.round(p) / 100], where [p] is the
    double product [v * 100] and the quotient is the double one. For a
    finite [p], [Math.round(p)] is the integer [n] nearest to [p], the
    upper one on a tie; [n] is [p] rounded half away from zero when
    [p >= 0] or [p] is not a tie, and one more than that when [p] is
    negative and a tie. NaN and the infinities are returned unchanged by
    [Math.round]. *)
Theorem round_is_half_up (v : float) :
  Double.round v 2 = (Double.Math_round (v * 100) / 100)%float
  /\ Double.round2 v = Double.round v 2
  /\ (forall p : Q,
        Double.exact (v * 100) = Some p ->
        exists (n : Z) (r : Q),
          Double.exact (Double.Math_round (v * 100)) = Some r
          /\ (r == inject_Z n)%Q
          /\ (p - (1 # 2) < inject_Z n <= p + (1 # 2))%Q
          /\ ((0 <= p)%Q \/ ~ is_tie p -> n = round_half_away p)
          /\ ((p < 0)%Q /\ is_tie p -> n = round_half_away p + 1))
  /\ (Double.exact (v * 100) = None ->
        Double.Math_round (v * 100) = (v * 100)%float).
Proof.
  split; [reflexivity|]. split; [reflexivity|]. split.
  - intros p Hp.
    destruct (Math_round_exact _ p Hp) as (r & Er & Hr).
    exists (Qfloor (p + (1 # 2))), r.
    split; [exact Er|]. split; [exact Hr|].
    pose proof (Qfloor_le (p + (1 # 2))) as H1.
    pose proof (Qlt_floor (p + (1 # 2))) as H2.
    rewrite inject_Z_plus in H2. change (inject_Z 1) with 1%Q in H2.
    destruct (floor_half_vs_half_away p) as [Hsame Htie].
    split; [split; lra|]. split; [exact Hsame | exact Htie].
  - apply Math_round_not_finite.
Qed.

(** The product [0.015 * 100] is the double 1.5, a tie, though [0.015]
    as a double lies below 15/1000: [round] returns 0.02 where the exact
    product would round to 0.01. Rounding is not idempotent either. *)
Example round_rounds_the_double_product :
  Double.round 0.015 2 = 0.02%float
  /\ (0.015 * 100 = 1.5)%float
  /\ (exists q, Double.exact 0.015 = Some q /\ (q < 15 # 1000)%Q)
  /\ Double.round 44967261343792.125 2 = 44967261343792.133%float
  /\ Double.round (Double.round 44967261343792.125 2) 2
     = 44967261343792.141%float.
Proof.
  split; [vm_compute; reflexivity|]. split; [vm_compute; reflexivity|].
  split; [eexists; split; [vm_compute; reflexivity | reflexivity]|].
  split; vm_compute; reflexivity.
Qed.

(** The mean is the double one: with closes 1.25 and nine times 1 the sum
    divided by 10 lies below 1.025 and [sma10] is 1.02; with ten closes at
    0.065 the mean lies below the closes and rounds to 0.06, while a close
    rounds to 0.07. *)
Example sma_rounds_the_double_mean :
  option_map Double.sma10
    (nth_error (Double.addIndicators (Double.flat_candles Double.tie_window))
       9)
  = Some (Some 1.02%float)
  /\ option_map Double.sma10
       (nth_error
          (Double.addIndicators (Double.flat_candles (repeat 0.065%float 10)))
          9)
     = Some (Some 0.06%float)
  /\ Double.round 0.065 2 = 0.07%float.
Proof. repeat split; vm_compute; reflexivity. Qed.

(** One gain of 67 and one loss of 93 in the window: the RSI is 41.87. *)
Example rsi_of_one_gain_one_loss :
  option_map Double.rsi14
    (nth_error
       (Double.addIndicators (Double.flat_candles Double.one_gain_one_loss))
       14)
  = Some (Some 41.87%float).
Proof. vm_compute. reflexivity. Qed.

(** Fourteen closes at the least positive double and then 0: each loss is
    positive, their average underflows to 0 and the RSI is 100. *)
Example rsi_of_an_underflowing_loss :
  option_map Double.rsi14
    (nth_error
       (Double.addIndicators
          (Double.flat_candles (repeat 5e-324 14 ++ [0])%float))
       14)
  = Some (Some 100%float).
Proof. vm_compute. reflexivity. Qed.

(** ** RSI: range *)


(** ** Percentage changes *)

(** X3: [previousClose] and [dailyChangePct] are absent on a single candle;
    otherwise [previousClose] is the close before the last, rounded, and
    [dailyChangePct] is the percentage change from it,
    [round(((last - prev) / prev) * 100, 2)] in doubles, absent when that
    close is falsy: a zero of either sign, or NaN. *)
Theorem previous_close_and_daily_change (candles : list Double.Candle) :
  candles <> [] ->
  exists r last,
    Double.analyzeNifty candles = Ok r
    /\ nth_error candles (List.length candles - 1) = Some last
    /\ Double.lastClose r = Double.round (Double.close last) 2
    /\ (List.length candles = 1%nat ->
          Double.previousClose r = None /\ Double.dailyChangePct r = None)
    /\ (forall prev,
          (2 <= List.length candles)%nat ->
          nth_error candles (List.length candles - 2) = Some prev ->
          Double.previousClose r = Some (Double.round (Double.close prev) 2)
          /\ ((Double.close prev =? 0)%float = true
              \/ is_nan (Double.close prev) = true ->
                Double.dailyChangePct r = None)
          /\ ((Double.close prev =? 0)%float = false ->
              is_nan (Double.close prev) = false ->
                Double.dailyChangePct r
                = Some (Double.round
                          ((Double.close last - Double.close prev)
                           / Double.close prev * 100) 2))).
Proof.
  intros Hne.
  destruct (double_analyzeNifty_parts candles Hne)
    as (r & lp & Er & Elp & Elast & Eprev & Edaily & _).
  destruct (double_last_point_fields candles lp Elp) as (Hlast & _).
  exists r, (Double.candle lp). split; [exact Er|].
  split; [exact Hlast|]. split; [exact Elast|].
  rewrite Eprev, Edaily. unfold Double.previous_candle. split.
  - intros ->. split; reflexivity.
  - intros prev Hlen Eprev'.
    destruct (Nat.ltb_spec 1 (List.length candles)); [|lia].
    rewrite Eprev'. cbn [option_map]. unfold Double.truthy.
    split; [reflexivity|]. split.
    + intros [Hz | Hz]; rewrite Hz; [rewrite orb_true_r|]; reflexivity.
    + intros Hz Hnan. rewrite Hz, Hnan. reflexivity.
Qed.

Lemma previous_close_and_daily_change_witness :
  exists r,
    Double.analyzeNifty (Double.flat_candles Double.two_closes) = Ok r
    /\ Double.lastClose r = 183%float
    /\ Double.previousClose r = Some 160%float
    /\ Double.dailyChangePct r = Some 14.37%float.
Proof.
  assert (Hne : Double.flat_candles Double.two_closes <> [])
    by discriminate.
  destruct (previous_close_and_daily_change _ Hne)
    as (r & last & Er & El & Ec & _ & Hprev).
  injection El as <-.
  destruct (Hprev (Double.flat_candle 160) (le_n 2) eq_refl)
    as (Ep & _ & Ed).
  exists r. split; [exact Er|]. split; [exact Ec|]. split; [exact Ep|].
  exact (Ed eq_refl eq_refl).
Defined.

(** X4: [momentumPct5Day] is always present on a non-empty sequence. Its
    reference is the candle 5 positions before the last, or the first
    candle when there are fewer than 6; the value is the percentage change
    from the reference close, [round(((last - ref) / ref) * 100, 2)] in
    doubles. The division is not guarded: over a zero reference close the
    value is NaN or an infinity, not absent. *)
Theorem momentum_over_five_days (candles : list Double.Candle) :
  candles <> [] ->
  exists r last ref,
    Double.analyzeNifty candles = Ok r
    /\ nth_error candles (List.length candles - 1) = Some last
    /\ ((6 <= List.length candles)%nat ->
          nth_error candles (List.length candles - 6) = Some ref)
    /\ ((List.length candles < 6)%nat -> nth_error candles 0 = Some ref)
    /\ Double.momentumPct5Day r
       = Some (Double.round
                 ((Double.close last - Double.close ref)
                  / Double.close ref * 100) 2)
    /\ ((Double.close ref =? 0)%float = true ->
          exists v, Double.momentumPct5Day r = Some v
                    /\ Double.not_finite v).
Proof.
  intros Hne.
  destruct (double_analyzeNifty_parts candles Hne)
    as (r & lp & Er & Elp & _ & _ & _ & Emom & _).
  destruct (double_last_point_fields candles lp Elp) as (Hlast & _).
  assert (Href : exists ref, Double.reference_candle candles = Some ref).
  { unfold Double.reference_candle.
    destruct (Nat.leb_spec 6 (List.length candles)).
    - destruct (nth_error candles (List.length candles - 6)) eqn:E;
        [now eexists|]. apply nth_error_None in E. lia.
    - destruct candles; [contradiction | now eexists]. }
  destruct Href as (ref & Eref).
  exists r, (Double.candle lp), ref. split; [exact Er|].
  split; [exact Hlast|].
  rewrite Emom, Eref. cbn [option_map].
  unfold Double.reference_candle in Eref.
  split; [|split; [|split]].
  - intros H. destruct (Nat.leb_spec 6 (List.length candles));
      [exact Eref | lia].
  - intros H. destruct (Nat.leb_spec 6 (List.length candles));
      [lia | exact Eref].
  - reflexivity.
  - intros Hz. eexists. split; [reflexivity|].
    apply pct_change_zero_reference. exact Hz.
Qed.

Lemma momentum_over_five_days_witness :
  exists r,
    Double.analyzeNifty (Double.flat_candles Double.two_closes) = Ok r
    /\ Double.momentumPct5Day r = Some 14.37%float.
Proof.
  assert (Hne : Double.flat_candles Double.two_closes <> [])
    by discriminate.
  destruct (momentum_over_five_days _ Hne)
    as (r & last & ref & Er & El & _ & Eref & Em & _).
  injection El as <-.
  specialize (Eref ltac:(cbn; lia)). injection Eref as <-.
  exists r. split; [exact Er | exact Em].
Defined.
